(** * fu-sca: the action dispatcher (tools.py) and the evidence validator
      (reporter.py), embedded shallowly.

    Python values are modelled as the code uses them: [str] as [string]
    (a sequence of code points below 256), [int] as [Z], dictionaries
    keyed by path as [gmap].  Code that talks to the outside (the
    Playwright page, [exec], [input], the LLM, the file system) runs in a
    state-and-exception monad over an explicit world; the outside itself
    is an oracle the theorems quantify over. *)

From Stdlib Require Import String Ascii List ZArith Lia Bool Permutation Sorted.
From stdpp Require Import gmap strings.
Import ListNotations.
Local Open Scope string_scope.

(* ===================================================================== *)
(** * Python built-ins used by the sources                                *)
(* ===================================================================== *)

Module Py.

(** [s.startswith(prefix)] *)
Fixpoint startswith (s prefix : string) {struct prefix} : bool :=
  match prefix with
  | EmptyString => true
  | String p prefix' =>
      match s with
      | EmptyString => false
      | String c s' => Ascii.eqb c p && startswith s' prefix'
      end
  end.

(** [sub in s]: some suffix of [s] starts with [sub]. *)
Fixpoint contains (sub s : string) : bool :=
  startswith s sub ||
  match s with
  | EmptyString => false
  | String _ s' => contains sub s'
  end.

(** [str.isspace] on one character, for code points below 256:
    TAB LF VT FF CR, FS GS RS US, SPACE, NEL (0x85) and NBSP (0xa0). *)
Definition isspace (c : ascii) : bool :=
  let n := N_of_ascii c in
  (((9 <=? n) && (n <=? 13)) || ((28 <=? n) && (n <=? 32))
   || (n =? 133) || (n =? 160))%N.

(** [s.lstrip()] *)
Fixpoint lstrip (s : string) : string :=
  match s with
  | EmptyString => EmptyString
  | String c s' => if isspace c then lstrip s' else s
  end.

(** [s.rstrip()] *)
Fixpoint rstrip (s : string) : string :=
  match s with
  | EmptyString => EmptyString
  | String c s' =>
      match rstrip s' with
      | EmptyString => if isspace c then EmptyString else String c EmptyString
      | String d r => String c (String d r)
      end
  end.

(** [s.strip()] *)
Definition strip (s : string) : string := rstrip (lstrip s).

(** [s[n:]] *)
Fixpoint slice_from (n : nat) (s : string) : string :=
  match n, s with
  | O, _ => s
  | S _, EmptyString => EmptyString
  | S k, String _ s' => slice_from k s'
  end.

(** [s[:n]] *)
Fixpoint slice_to (n : nat) (s : string) : string :=
  match n, s with
  | O, _ => EmptyString
  | S _, EmptyString => EmptyString
  | S k, String c s' => String c (slice_to k s')
  end.

(** [s.replace(old, new)] scans left to right and replaces the
    non-overlapping occurrences of [old]; [skip] counts the characters of
    the occurrence just replaced that are still to be passed over. *)
Fixpoint replace_from (old new : string) (skip : nat) (s : string) : string :=
  match s with
  | EmptyString => EmptyString
  | String c s' =>
      match skip with
      | S k => replace_from old new k s'
      | O =>
          if startswith s old
          then new ++ replace_from old new (String.length old - 1) s'
          else String c (replace_from old new 0 s')
      end
  end.

(** With an empty [old], Python puts [new] before every character and at
    the end. *)
Fixpoint intersperse (new s : string) : string :=
  match s with
  | EmptyString => new
  | String c s' => new ++ String c (intersperse new s')
  end.

Definition replace (s old new : string) : string :=
  match old with
  | EmptyString => intersperse new s
  | String _ _ => replace_from old new 0 s
  end.

(** [sep.join(l)] *)
Fixpoint join (sep : string) (l : list string) : string :=
  match l with
  | [] => EmptyString
  | [x] => x
  | x :: rest => x ++ sep ++ join sep rest
  end.

(** [s.lower()] for code points below 256: the capital letters of ASCII
    and of Latin-1 (0xC0 to 0xDE but the multiplication sign 0xD7) move
    up by 32. *)
Definition lower_code (c : ascii) : ascii :=
  let n := N_of_ascii c in
  if (((65 <=? n) && (n <=? 90))
      || ((192 <=? n) && (n <=? 222) && negb (n =? 215)))%N
  then ascii_of_N (n + 32) else c.

Fixpoint str_lower (s : string) : string :=
  match s with
  | EmptyString => EmptyString
  | String c s' => String (lower_code c) (str_lower s')
  end.

(** Exceptions.  [except Exception] catches every class but the ones
    that derive from [BaseException] only. *)
Inductive exn_class :=
  | AttributeError | TypeError | ValueError | SyntaxError | NameError
  | FileNotFoundError | OSError | EOFError | RuntimeError
  | KeyboardInterrupt | SystemExit.

Record exn := Exn { exn_cls : exn_class; exn_msg : string }.

Definition is_Exception (c : exn_class) : bool :=
  match c with
  | KeyboardInterrupt | SystemExit => false
  | _ => true
  end.

Definition exn_class_eqb (a b : exn_class) : bool :=
  match a, b with
  | AttributeError, AttributeError | TypeError, TypeError
  | ValueError, ValueError | SyntaxError, SyntaxError
  | NameError, NameError | FileNotFoundError, FileNotFoundError
  | OSError, OSError | EOFError, EOFError | RuntimeError, RuntimeError
  | KeyboardInterrupt, KeyboardInterrupt | SystemExit, SystemExit => true
  | _, _ => false
  end.

(** What a call does: it returns a value or raises. *)
Inductive outcome (A : Type) :=
  | Ret (a : A)
  | Raise (e : exn).
Arguments Ret {A} a.
Arguments Raise {A} e.

Definition returned {A} (o : outcome A) : bool :=
  match o with Ret _ => true | Raise _ => false end.

(** The monad of the effectful code: a world [W] is threaded through,
    and the world reached is kept when an exception is raised. *)
Definition M (W A : Type) : Type := W -> outcome A * W.

Definition ret {W A} (a : A) : M W A := fun w => (Ret a, w).

Definition raise {W A} (e : exn) : M W A := fun w => (Raise e, w).

Definition bind {W A B} (c : M W A) (k : A -> M W B) : M W B :=
  fun w =>
    match c w with
    | (Ret a, w') => k a w'
    | (Raise e, w') => (Raise e, w')
    end.

(** [try: c  except Exception as e: h e] *)
Definition try_except {W A} (c : M W A) (h : exn -> M W A) : M W A :=
  fun w =>
    match c w with
    | (Ret a, w') => (Ret a, w')
    | (Raise e, w') =>
        if is_Exception (exn_cls e) then h e w' else (Raise e, w')
    end.

(** [try: c  except cls: h] for one class. *)
Definition try_except_cls {W A} (cls : exn_class) (c : M W A) (h : M W A)
  : M W A :=
  fun w =>
    match c w with
    | (Ret a, w') => (Ret a, w')
    | (Raise e, w') =>
        if exn_class_eqb (exn_cls e) cls then h w' else (Raise e, w')
    end.

(** [try: c  finally: f] *)
Definition try_finally {W A} (c : M W A) (f : W -> W) : M W A :=
  fun w => let (r, w') := c w in (r, f w').

End Py.

Export Py.

Declare Scope py_scope.
Delimit Scope py_scope with py.
Notation "x <- c ;; k" := (bind c (fun x => k))
  (at level 100, c at next level, right associativity) : py_scope.
Notation "c ;;; k" := (bind c (fun _ => k))
  (at level 100, right associativity) : py_scope.
Local Open Scope py_scope.

(* ===================================================================== *)
(** * tools.py                                                            *)
(* ===================================================================== *)

Module Tools.

(** ** [Tools._wrap_js_for_playwright]

    The [isinstance(code, str)] guard returns a non-string argument as it
    is; the embedding takes the string case. *)
Definition _wrap_js_for_playwright (code : string) : string :=
  let stripped := strip code in
  if startswith stripped "(() =>" || startswith stripped "() =>"
     || startswith stripped "function"
  then stripped
  else if startswith stripped "return "
  then let expr := slice_from (String.length "return ") stripped in
       "() => " ++ expr
  else stripped.

(** ** The browsing context

    The page belongs to the caller.  Every use of it by the dispatcher is
    one of the calls below; what the page answers (a value or an
    exception) may depend on everything it was asked before. *)
Inductive page_call :=
  | pg_wait_for_selector (selector : string) (timeout : Z)
  | pg_click (selector : string) (timeout : Z)
  | pg_fill (selector value : string) (timeout : Z)
  | pg_locator (selector : string)
  | pg_locator_click (selector : string) (timeout : Z)
  | pg_evaluate (expression : string) (timeout : option Z)
  | pg_goto (url : string) (timeout : Z) (wait_until : string)
  | pg_reload (timeout : Z) (wait_until : string)
  | pg_keyboard_press (key : string)
  | pg_inner_html (selector : string)
  | pg_context
  | pg_context_cookies
  | pg_url.

(** The attribute of [page] a call starts from. *)
Definition page_attribute (c : page_call) : string :=
  match c with
  | pg_wait_for_selector _ _ => "wait_for_selector"
  | pg_click _ _ => "click"
  | pg_fill _ _ _ => "fill"
  | pg_locator _ | pg_locator_click _ _ => "locator"
  | pg_evaluate _ _ => "evaluate"
  | pg_goto _ _ _ => "goto"
  | pg_reload _ _ => "reload"
  | pg_keyboard_press _ => "keyboard"
  | pg_inner_html _ => "inner_html"
  | pg_context | pg_context_cookies => "context"
  | pg_url => "url"
  end.

(** A page: its answer to a call, given the calls made so far (latest
    first). *)
Definition Page : Type := list page_call -> page_call -> outcome string.

(** What [sys.stdout] can be bound to. *)
Inductive stream :=
  | console_stream
  | StringIO (id : nat)
  | other_stream (id : nat).

(** The world of the dispatcher: the calls made on the page, the binding
    of [sys.stdout], the [StringIO] objects (text written, closed flag)
    and the prompts shown by [input]. *)
Record World := mkWorld {
  page_log : list page_call;
  sys_stdout : stream;
  buffers : list (string * bool);
  prompts : list string
}.

Definition log_call (c : page_call) (w : World) : World :=
  mkWorld (c :: page_log w) (sys_stdout w) (buffers w) (prompts w).

Definition set_stdout (s : stream) (w : World) : World :=
  mkWorld (page_log w) s (buffers w) (prompts w).

Definition set_buffers (b : list (string * bool)) (w : World) : World :=
  mkWorld (page_log w) (sys_stdout w) b (prompts w).

(** [page.<call>]; [page] may be [None]. *)
Definition call_page (page : option Page) (c : page_call) : M World string :=
  match page with
  | None =>
      raise (Exn AttributeError
               ("'NoneType' object has no attribute '" ++ page_attribute c ++ "'"))
  | Some p => fun w => (p (page_log w) c, log_call c w)
  end.

(** [StringIO()] *)
Definition new_StringIO : M World nat :=
  fun w => (Ret (length (buffers w)),
            set_buffers (buffers w ++ [(EmptyString, false)]) w).

(** [buf.getvalue()] raises on a closed buffer. *)
Definition getvalue (buf : nat) : M World string :=
  fun w =>
    match buffers w !! buf with
    | Some (text, false) => (Ret text, w)
    | _ => (Raise (Exn ValueError "I/O operation on closed file"), w)
    end.

(** [buf.close()] *)
Definition close_buffer (buf : nat) (w : World) : World :=
  match buffers w !! buf with
  | Some (text, _) => set_buffers (<[buf := (text, true)]> (buffers w)) w
  | None => w
  end.

Definition get_stdout : M World stream := fun w => (Ret (sys_stdout w), w).

Definition put_stdout (s : stream) : M World unit :=
  fun w => (Ret tt, set_stdout s w).

(** The facts [python_interpreter] puts in the namespace of the executed
    code when a page is supplied. *)
Record page_facts := mkFacts {
  g_browser_context : string;
  g_cookies : string;
  g_current_url : string;
  g_user_agent : string
}.

(** The dispatcher object: the fields set by [__init__]. *)
Record tools := mkTools {
  _llm : option string;      (* [None], or the LLM client once loaded *)
  default_timeout_ms : Z;
  safe : bool
}.

(** [Tools(default_timeout_ms=7000, safe=False)] *)
Definition default_tools : tools := mkTools None 7000 false.

(** [Tools._with_retries], the loop on [range(retries + 1)] with
    [last_err] carried along. *)
Fixpoint retry_loop {A} (func : M World A) (n : nat) (last_err : option exn)
  : M World A :=
  match n with
  | O =>
      match last_err with
      | Some e => raise e
      | None => raise (Exn TypeError "exceptions must derive from BaseException")
      end
  | S n' => try_except func (fun e => retry_loop func n' (Some e))
  end.

Definition _with_retries {A} (func : M World A) (retries : Z) : M World A :=
  retry_loop func (Z.to_nat (retries + 1)) None.

Section Dispatcher.

(** [exec(code, exec_globals)]: whatever the executed code does to the
    world, the page included. *)
Variable py_exec : string -> option Page -> option page_facts -> M World unit.

(** [input(prompt)] *)
Variable py_input : string -> M World string.

Variable self : tools.

Definition execute_js (page : option Page) (js_code : string) : M World string :=
  try_except
    (let code := _wrap_js_for_playwright js_code in
     call_page page (pg_evaluate code (Some (default_timeout_ms self))))
    (fun e => ret ("JS_ERROR: " ++ exn_msg e)).

Definition click (page : option Page) (css_selector : string) : M World string :=
  if safe self then ret "SAFE_MODE: click disabled"
  else
    try_except
      (_with_retries
         (call_page page (pg_wait_for_selector css_selector (default_timeout_ms self))) 2 ;;;
       _with_retries
         (call_page page (pg_click css_selector (default_timeout_ms self))) 2 ;;;
       call_page page (pg_inner_html "html"))
      (fun e => ret ("CLICK_ERROR: " ++ exn_msg e)).

Definition fill (page : option Page) (css_selector value : string)
  : M World string :=
  if safe self then ret "SAFE_MODE: fill disabled"
  else
    try_except
      (_with_retries
         (call_page page (pg_wait_for_selector css_selector (default_timeout_ms self))) 2 ;;;
       _with_retries
         (call_page page (pg_fill css_selector value (default_timeout_ms self))) 2 ;;;
       call_page page (pg_inner_html "html"))
      (fun e => ret ("FILL_ERROR: " ++ exn_msg e)).

(** [page.locator(css_selector)] is evaluated once, as an argument of
    [_with_retries]; the click on the locator is what is retried. *)
Definition submit (page : option Page) (css_selector : string) : M World string :=
  if safe self then ret "SAFE_MODE: submit disabled"
  else
    try_except
      (_with_retries
         (call_page page (pg_wait_for_selector css_selector (default_timeout_ms self))) 2 ;;;
       call_page page (pg_locator css_selector) ;;;
       _with_retries
         (call_page page (pg_locator_click css_selector (default_timeout_ms self))) 2 ;;;
       call_page page (pg_inner_html "html"))
      (fun e => ret ("SUBMIT_ERROR: " ++ exn_msg e)).

Definition presskey (page : option Page) (key : string) : M World string :=
  call_page page (pg_keyboard_press key) ;;;
  call_page page (pg_inner_html "html").

Definition goto (page : option Page) (url : string) : M World string :=
  try_except
    (_with_retries
       (call_page page (pg_goto url (default_timeout_ms self) "load")) 2 ;;;
     call_page page (pg_inner_html "html"))
    (fun e => ret ("GOTO_ERROR: " ++ exn_msg e)).

Definition refresh (page : option Page) : M World string :=
  try_except
    (_with_retries
       (call_page page (pg_reload (default_timeout_ms self) "load")) 2 ;;;
     call_page page (pg_inner_html "html"))
    (fun e => ret ("REFRESH_ERROR: " ++ exn_msg e)).

Definition forbidden : list string :=
  ["sync_playwright("; "async_playwright("; "from playwright"; "import playwright"].

(** The [exec_globals] update made when [page] is truthy; the four
    values are evaluated in the order of the dict display. *)
Definition gather_facts (page : option Page) : M World (option page_facts) :=
  match page with
  | None => ret None
  | Some _ =>
      ctx <- call_page page pg_context ;;
      cookies <- call_page page pg_context_cookies ;;
      url <- call_page page pg_url ;;
      ua <- call_page page (pg_evaluate "navigator.userAgent" None) ;;
      ret (Some (mkFacts ctx cookies url ua))
  end.

Definition python_interpreter (code : string) (page : option Page)
  : M World string :=
  if safe self then ret "SAFE_MODE: python_interpreter disabled"
  else if existsb (fun f => contains f code) forbidden
  then ret "PYTHON_ERROR: Playwright launch is not allowed from python_interpreter. Use existing page context."
  else
    output_buffer <- new_StringIO ;;
    old_stdout <- get_stdout ;;
    put_stdout (StringIO output_buffer) ;;;
    facts <- gather_facts page ;;
    try_finally
      (try_except
         (py_exec code page facts ;;;
          output <- getvalue output_buffer ;;
          ret (if (4000 <? String.length output)%nat
               then slice_to 4000 output ++ "... [truncated]"
               else output))
         (fun e => ret ("PYTHON_ERROR: " ++ exn_msg e)))
      (fun w => close_buffer output_buffer (set_stdout old_stdout w)).

Definition get_user_input (prompt : string) : M World string :=
  py_input prompt ;;; ret "Input done!".

Definition auth_needed : M World string :=
  py_input "Authentication needed. Please login and press enter to continue." ;;;
  ret "Authentication done!".

Definition complete : M World string := ret "Completed".

(** The script of [discover_forms]. *)
Definition discover_forms_js : string := "
        () => {
          const out = [];
          document.querySelectorAll('form').forEach((form, idx) => {
            const f = { index: idx, method: (form.method||'GET').toUpperCase(), action: form.action||'', fields: [] };
            form.querySelectorAll('input, select, textarea, button').forEach(el => {
              f.fields.push({
                tag: el.tagName.toLowerCase(),
                type: (el.type||'').toLowerCase(),
                name: el.name||'',
                id: el.id||'',
                placeholder: el.placeholder||'',
                required: !!el.required
              });
            });
            out.push(f);
          });
          return JSON.stringify(out);
        }
        ".

Definition discover_forms (page : option Page) : M World string :=
  try_except
    (call_page page (pg_evaluate discover_forms_js (Some (default_timeout_ms self))))
    (fun e => ret ("DISCOVER_FORMS_ERROR: " ++ exn_msg e)).

(** ** [Tools.execute_tool]

    [eval("self." + tool_use)] parses the text and evaluates it with
    [self] and [page] in scope.  The embedding starts from the parsed
    expression and covers the attribute reference [self.name] and the
    call [self.name(arg, ...)] with positional arguments; Python
    evaluates the callee [self.name] first, then the arguments from left
    to right, then makes the call. *)
Inductive pyval :=
  | v_str (s : string)
  | v_int (z : Z)
  | v_bool (b : bool)
  | v_none
  | v_page                      (* the page handed to [execute_tool] *)
  | v_method (name : string)    (* the bound method [self.name] *)
  | v_object (repr : string).   (* any other object *)

Inductive arg_expr :=
  | a_str (s : string)
  | a_int (z : Z)
  | a_bool (b : bool)
  | a_none
  | a_page                      (* the name [page] *)
  | a_expr (text : string).     (* any other expression *)

Inductive descriptor :=
  | d_invalid (msg : string)    (* the text is not an expression *)
  | d_attr (name : string)
  | d_call (name : string) (args : list arg_expr).

(** The operation a descriptor names. *)
Definition operation_name (d : descriptor) : option string :=
  match d with
  | d_invalid _ => None
  | d_attr name | d_call name _ => Some name
  end.

(** The methods the class statement of [Tools] defines. *)
Definition tools_methods : list string :=
  ["_wrap_js_for_playwright"; "execute_js"; "_with_retries"; "click"; "fill";
   "submit"; "presskey"; "goto"; "refresh"; "python_interpreter";
   "get_user_input"; "auth_needed"; "complete"; "discover_forms";
   "execute_tool"; "_get_llm"; "extract_tool_use"].

Definition in_list (x : string) (l : list string) : bool :=
  existsb (String.eqb x) l.

(** The rest of Python: an argument that is not a literal or [page], an
    attribute inherited from [object] (their names start with two
    underscores), and a call the embedding does not follow (a helper
    that reaches the LLM or takes a callable, or arguments that do not
    fit the signature). *)
Variable py_eval_expr : string -> M World pyval.
Variable py_getattr_inherited : string -> outcome pyval.
Variable py_call_other : string -> list pyval -> M World pyval.

(** [getattr(self, name)]: the instance fields, the methods, then what
    [object] provides. *)
Definition getattr_self (name : string) : outcome pyval :=
  if String.eqb name "_llm"
  then Ret (match _llm self with None => v_none | Some r => v_object r end)
  else if String.eqb name "default_timeout_ms" then Ret (v_int (default_timeout_ms self))
  else if String.eqb name "safe" then Ret (v_bool (safe self))
  else if in_list name tools_methods then Ret (v_method name)
  else if startswith name "__" then py_getattr_inherited name
  else Raise (Exn AttributeError
                ("'Tools' object has no attribute '" ++ name ++ "'")).

Definition eval_arg (page : option Page) (a : arg_expr) : M World pyval :=
  match a with
  | a_str s => ret (v_str s)
  | a_int z => ret (v_int z)
  | a_bool b => ret (v_bool b)
  | a_none => ret v_none
  | a_page => ret (match page with Some _ => v_page | None => v_none end)
  | a_expr text => py_eval_expr text
  end.

Fixpoint eval_args (page : option Page) (args : list arg_expr)
  : M World (list pyval) :=
  match args with
  | [] => ret []
  | a :: rest =>
      v <- eval_arg page a ;;
      vs <- eval_args page rest ;;
      ret (v :: vs)
  end.

(** The page a value passed for the [page] parameter stands for. *)
Definition as_page (page : option Page) (v : pyval) : option (option Page) :=
  match v with
  | v_page => Some page
  | v_none => Some None
  | _ => None
  end.

Definition str_result (c : M World string) : M World pyval :=
  s <- c ;; ret (v_str s).

(** The call of the method [self.name] on evaluated arguments. *)
Definition call_method (page : option Page) (name : string) (args : list pyval)
  : M World pyval :=
  let other := py_call_other name args in
  let with_page (p : pyval) (k : option Page -> M World pyval) :=
    match as_page page p with Some pg => k pg | None => other end in
  if String.eqb name "_wrap_js_for_playwright" then
    match args with
    | [v_str code] => ret (v_str (_wrap_js_for_playwright code))
    | [v] => ret v
    | _ => other
    end
  else if String.eqb name "execute_js" then
    match args with
    | [p; v_str js] => with_page p (fun pg => str_result (execute_js pg js))
    | _ => other
    end
  else if String.eqb name "click" then
    match args with
    | [p; v_str sel] => with_page p (fun pg => str_result (click pg sel))
    | _ => other
    end
  else if String.eqb name "fill" then
    match args with
    | [p; v_str sel; v_str value] =>
        with_page p (fun pg => str_result (fill pg sel value))
    | _ => other
    end
  else if String.eqb name "submit" then
    match args with
    | [p; v_str sel] => with_page p (fun pg => str_result (submit pg sel))
    | _ => other
    end
  else if String.eqb name "presskey" then
    match args with
    | [p; v_str key] => with_page p (fun pg => str_result (presskey pg key))
    | _ => other
    end
  else if String.eqb name "goto" then
    match args with
    | [p; v_str url] => with_page p (fun pg => str_result (goto pg url))
    | _ => other
    end
  else if String.eqb name "refresh" then
    match args with
    | [p] => with_page p (fun pg => str_result (refresh pg))
    | _ => other
    end
  else if String.eqb name "python_interpreter" then
    match args with
    | [v_str code] => str_result (python_interpreter code None)
    | [v_str code; p] =>
        with_page p (fun pg => str_result (python_interpreter code pg))
    | _ => other
    end
  else if String.eqb name "get_user_input" then
    match args with
    | [v_str prompt] => str_result (get_user_input prompt)
    | _ => other
    end
  else if String.eqb name "auth_needed" then
    match args with
    | [] => str_result auth_needed
    | _ => other
    end
  else if String.eqb name "complete" then
    match args with
    | [] => str_result complete
    | _ => other
    end
  else if String.eqb name "discover_forms" then
    match args with
    | [p] => with_page p (fun pg => str_result (discover_forms pg))
    | _ => other
    end
  else other.

Definition type_name (v : pyval) : string :=
  match v with
  | v_str _ => "str"
  | v_int _ => "int"
  | v_bool _ => "bool"
  | v_none => "NoneType"
  | v_page => "Page"
  | v_method _ => "method"
  | v_object r => r
  end.

(** Calling the value of [self.name]. *)
Definition call_value (page : option Page) (f : pyval) (args : list pyval)
  : M World pyval :=
  match f with
  | v_method name => call_method page name args
  | v_str _ | v_int _ | v_bool _ | v_none =>
      raise (Exn TypeError ("'" ++ type_name f ++ "' object is not callable"))
  | v_page | v_object _ => py_call_other (type_name f) args
  end.

Definition lift {A} (o : outcome A) : M World A := fun w => (o, w).

(** The evaluation of [self.<tool_use>]. *)
Definition eval_self (page : option Page) (tool_use : descriptor)
  : M World pyval :=
  match tool_use with
  | d_invalid msg => raise (Exn SyntaxError msg)
  | d_attr name => lift (getattr_self name)
  | d_call name args =>
      f <- lift (getattr_self name) ;;
      vs <- eval_args page args ;;
      call_value page f vs
  end.

Definition execute_tool (page : option Page) (tool_use : descriptor)
  : M World pyval :=
  try_except
    (eval_self page tool_use)
    (fun e => ret (v_str ("Error executing tool: " ++ exn_msg e))).

(** The operations the agent is told it may use (the tool list of the
    prompt in [extract_tool_use]), and [discover_forms]. *)
Definition allow_list : list string :=
  ["execute_js"; "click"; "fill"; "auth_needed"; "get_user_input"; "presskey";
   "submit"; "goto"; "refresh"; "python_interpreter"; "complete";
   "discover_forms"].

End Dispatcher.

End Tools.

(* ===================================================================== *)
(** * reporter.py                                                         *)
(* ===================================================================== *)

Module Reporter.

(** The double quote and the line feed, for the text constants. *)
Definition dq : string := String (Ascii.ascii_of_nat 34) EmptyString.
Definition nl : string := String (Ascii.ascii_of_nat 10) EmptyString.

(** A transcript entry. *)
Record message := mkMessage { role : string; content : string }.

(** The reasoning service: its reply (or failure) to a list of messages,
    given the requests it served before (latest first). *)
Definition LLM : Type := list (list message) -> list message -> outcome string.

(** The world of the reporter: the directories that exist, the files
    (keyed by directory and file name) and the requests sent to the
    reasoning service. *)
Record World := mkWorld {
  dirs : gset string;
  files : gmap (string * string) string;
  llm_log : list (list message)
}.

(** The reporter object. *)
Record reporter := mkReporter {
  reports : list string;
  starting_url : string;
  output_dir : string;
  filename : string
}.

(** [Reporter.__init__]; the file name is the URL with the scheme texts
    and the slashes replaced. *)
Definition __init__ (starting_url output_dir : string) : reporter :=
  mkReporter [] starting_url output_dir
    (replace (replace (replace starting_url "https://" "") "http://" "") "/" "_").

(** [open(path, "w")] and [f.write(text)]: the directory must exist, the
    file is created or truncated. *)
Definition write_file (dir name text : string) : M World unit :=
  fun w =>
    if bool_decide (dir ∈ dirs w)
    then (Ret tt, mkWorld (dirs w) (<[(dir, name) := text]> (files w)) (llm_log w))
    else (Raise (Exn FileNotFoundError
                   ("[Errno 2] No such file or directory: '" ++ dir ++ "/" ++ name ++ "'")),
          w).

(** [open(path, "r")] and [f.read()] *)
Definition read_file (dir name : string) : M World string :=
  fun w =>
    match files w !! (dir, name) with
    | Some text => (Ret text, w)
    | None =>
        (Raise (Exn FileNotFoundError
                  ("[Errno 2] No such file or directory: '" ++ dir ++ "/" ++ name ++ "'")),
         w)
    end.

(** [path.mkdir(parents=True, exist_ok=True)] *)
Definition mkdir (dir : string) : M World unit :=
  fun w => (Ret tt, mkWorld ({[dir]} ∪ dirs w) (files w) (llm_log w)).

Definition judge_prompt : string := "
        You are a highly critical security vulnerability judge. Your job is to analyze a conversation between a security testing agent and determine if a REAL, WORKING exploit was actually discovered and proven.

        You must be extremely strict in your assessment. For a vulnerability to be considered valid, the conversation MUST show:
        1. A clear attack vector that was successfully exploited
        2. Concrete proof that the exploit worked (e.g. actual sensitive data accessed, actual code execution achieved, authentication bypass, privilege escalation, etc.)
        3. Specific technical details about how the exploit was performed
        4. The exact payload/steps that made it work

        You must REJECT findings that:
        - Are theoretical or potential vulnerabilities without proof
        - Only show error messages or unexpected behavior
        - Lack a working proof-of-concept exploit
        - Are low severity issues like mixed content, missing headers etc.
        - Make assumptions about what " ++ dq ++ "could" ++ dq ++ " be possible
        - Don't have explicit evidence of successful exploitation

        If and ONLY if you see clear evidence of a working exploit, create a brief report with:
        - Description of the proven vulnerability
        - The exact endpoint/component affected
        - The specific payload/steps that worked
        - Evidence showing successful exploitation
        
        For instance, if we have found a CSRF issue, is the endpoint actually an authentication endpoint? Is it sensitive? Similarly, if we have found an XSS issue, can the user really control that input? If there is a js engine inside the page and we can get an alert, that's not an issue at all. Vulnerabilities are rare, so you need to be extremely strict in your examination.

        A good criteria you can use is that if we submit it to hackerone, do we get a bounty of more than $1000? If so, it's probably a valid issue. But you rarely get that, right?!

        Remember: Your job is to eliminate false positives. Be extremely skeptical and demanding of proof.
        ".

Definition judge_request : string := "Please analyze our conversation history and determine if any vulnerabilities were definitively proven with working exploits, or if the agent was just working lazily and stopped prematurely.".

Definition parse_prompt : string := "
        You are a report parser whose task is to look at a report and its evaluation and return a boolean value indicating whether the report resulted in a successful exploit or not.

        Only return 1 word, either " ++ dq ++ "yes" ++ dq ++ " if the report resulted in a successful exploit or " ++ dq ++ "no" ++ dq ++ " if it did not.
        ".

Definition summary_prompt : string := "
        You are a security report summarizer. Your task is to analyze the security findings and create a comprehensive markdown summary report.

        For each vulnerability found:
        1. Provide a clear description of the vulnerability and its severity
        2. Detail the affected endpoint/component
        3. Include the exact payload/steps that were used to exploit it
        4. Document the proof/evidence that confirmed successful exploitation
        5. Explain potential impact and recommendations

        Format the output as a proper markdown document with:
        - Executive summary at the top
        - Table of contents
        - Detailed findings in separate sections
        - Technical details in code blocks
        - Clear headings and structure
        
        Focus on proven vulnerabilities with concrete evidence. Exclude theoretical or unproven issues.
        ".

Definition delimiter : string := nl ++ nl ++ "-------" ++ nl ++ nl.

Section Validator.

Variable llm : LLM.

(** [self.llm.reason(messages)] *)
Definition reason (messages : list message) : M World string :=
  fun w => (llm (llm_log w) messages,
            mkWorld (dirs w) (files w) (messages :: llm_log w)).

(** [Reporter.parse_report]; [str(response)] is the reply itself. *)
Definition parse_report (report : string) : M World bool :=
  let system_prompt := [mkMessage "system" parse_prompt] in
  response <- reason (system_prompt ++ [mkMessage "user" report])%list ;;
  ret (contains "yes" response).

(** [Reporter.save_reports] *)
Definition save_reports (self : reporter) : M World unit :=
  write_file (output_dir self) (filename self ++ ".txt")
    (join delimiter (reports self)).

(** [Reporter.report]: the verdict, the report, and the two objects it
    updates in place (the reporter and the caller's history). *)
Definition report (self : reporter) (history : list message)
  : M World (bool * string * reporter * list message) :=
  let system_prompt := [mkMessage "system" judge_prompt] in
  let history := (history ++ [mkMessage "user" judge_request])%list in
  report <- reason (system_prompt ++ history)%list ;;
  successful_exploit <- parse_report report ;;
  if successful_exploit : bool
  then
    let self := mkReporter (reports self ++ [report])%list (starting_url self)
                  (output_dir self) (filename self) in
    save_reports self ;;;
    ret (successful_exploit, report, self, history)
  else ret (successful_exploit, report, self, history).

(** [Reporter.generate_summary_report]; the report is read from the
    directory [security_results]. *)
Definition generate_summary_report (self : reporter) : M World unit :=
  report_content <-
    try_except_cls FileNotFoundError
      (read_file "security_results" (filename self ++ ".txt"))
      (ret "No vulns were reported.") ;;
  let system_prompt := [mkMessage "system" summary_prompt] in
  summary <- reason (system_prompt ++ [mkMessage "user" report_content])%list ;;
  mkdir (output_dir self) ;;;
  write_file (output_dir self) (filename self ++ "_summary.md") summary.

End Validator.

(** ** The crawl summary *)

(** A request record of the proxy: [r.get('url')], [r.get('resource_type')]. *)
Record request := mkRequest {
  url : option string;
  resource_type : option string
}.

(** [sorted(set)]: insertion in code-point order, duplicates dropped. *)
Fixpoint insert_sorted (x : string) (l : list string) : list string :=
  match l with
  | [] => [x]
  | y :: l' =>
      match String.compare x y with
      | Lt => x :: l
      | Eq => l
      | Gt => y :: insert_sorted x l'
      end
  end.

Definition sorted_set (l : list string) : list string :=
  fold_right insert_sorted [] l.

(** [[r.get('url') for r in rs if r.get('url')]] *)
Fixpoint truthy_urls (rs : list request) : list string :=
  match rs with
  | [] => []
  | r :: rest =>
      match url r with
      | Some (String c u) => String c u :: truthy_urls rest
      | _ => truthy_urls rest
      end
  end.

Definition is_xhr_fetch (r : request) : bool :=
  match resource_type r with
  | Some t => String.eqb t "xhr" || String.eqb t "fetch"
  | None => false
  end.

(** The two URL lists of the summary. *)
Record crawl_data := mkCrawl {
  visited_urls : list string;
  js_endpoints : list string
}.

Section Crawl.

(** [urllib.parse]: [urlparse(u).netloc] and [urldefrag(u)]; [None]
    stands for a raised exception. *)
Variable urlparse_netloc : string -> option string.
Variable urldefrag : string -> option (string * string).

Definition same_origin (start_host u : string) : bool :=
  match urlparse_netloc u with
  | Some host => String.eqb host start_host
  | None => false
  end.

Definition canon (u : string) : string :=
  match urldefrag u with
  | Some (u2, _) => u2
  | None => u
  end.

(** [Reporter.generate_safe_crawl_summary], up to the [visited_urls] and
    [js_endpoints] entries of [data]; the result is [None] when
    [urlparse(self.starting_url)] raises. *)
Definition generate_safe_crawl_summary (self : reporter)
    (requests : list request) (include_third_party : bool)
  : option crawl_data :=
  match urlparse_netloc (starting_url self) with
  | None => None
  | Some start_host =>
      let urls_all := truthy_urls requests in
      let urls_all :=
        if negb include_third_party
        then List.filter (same_origin start_host) urls_all else urls_all in
      let visited_urls := sorted_set (map canon urls_all) in
      let xhr_fetch := List.filter is_xhr_fetch requests in
      let ep_urls := truthy_urls xhr_fetch in
      let ep_urls :=
        if negb include_third_party
        then List.filter (same_origin start_host) ep_urls else ep_urls in
      let js_endpoints := sorted_set (map canon ep_urls) in
      Some (mkCrawl visited_urls js_endpoints)
  end.

End Crawl.

(** ** The response headers of the summary *)

(** A response record of the proxy: [r.get('url')], [r.get('status')]
    and [r.get('headers')], a dict given by its items in order. *)
Record response := mkResponse {
  response_url : option string;
  status : option Z;
  headers : option (list (string * string))
}.

(** [(res.get('headers', {}) or {}).keys()] *)
Definition header_keys (res : response) : list string :=
  match headers res with
  | Some hdrs => map fst hdrs
  | None => []
  end.

(** [header_counts[k] = header_counts.get(k, 0) + 1] on a dict kept as
    its items in insertion order: a key that is there keeps its place, a
    new key goes to the end. *)
Fixpoint bump (k : string) (counts : list (string * nat))
  : list (string * nat) :=
  match counts with
  | [] => [(k, 1)]
  | (k', n) :: rest =>
      if String.eqb k' k then (k', S n) :: rest else (k', n) :: bump k rest
  end.

(** The loop over the responses and their header names. *)
Definition header_counts (responses : list response) : list (string * nat) :=
  fold_left
    (fun counts res =>
       fold_left (fun counts k => bump (str_lower k) counts)
         (header_keys res) counts)
    responses [].

(** [sorted(items, key=lambda x: x[1], reverse=True)]: by count, largest
    first; the sort is stable, items with the same count keep their
    order. *)
Fixpoint insert_by_count (x : string * nat) (l : list (string * nat))
  : list (string * nat) :=
  match l with
  | [] => [x]
  | y :: l' =>
      if (snd x <? snd y)%nat then y :: insert_by_count x l' else x :: l
  end.

Definition sorted_by_count (l : list (string * nat)) : list (string * nat) :=
  fold_right insert_by_count [] l.

(** [common_headers], the first 15 of the sorted items. *)
Definition common_headers (responses : list response) : list (string * nat) :=
  firstn 15 (sorted_by_count (header_counts responses)).

(** ** [urllib.parse] on plain URLs

    The answers of [urlsplit] and [urldefrag] for a URL without control
    characters and without brackets in the host: a scheme is the text
    before the first colon when it is made of scheme characters and
    starts with a letter; the host follows [//] and ends before the
    first of [/], [?] and [#]. *)
Definition is_alpha (c : ascii) : bool :=
  let n := N_of_ascii c in
  (((65 <=? n) && (n <=? 90)) || ((97 <=? n) && (n <=? 122)))%N.

Definition is_scheme_char (c : ascii) : bool :=
  let n := N_of_ascii c in
  (is_alpha c || ((48 <=? n) && (n <=? 57))
   || (n =? 43) || (n =? 45) || (n =? 46))%N.

(** The text after the scheme and its colon, when the text up to the
    first colon is made of scheme characters. *)
Fixpoint after_scheme (s : string) : option string :=
  match s with
  | EmptyString => None
  | String c s' =>
      if Ascii.eqb c ":" then Some s'
      else if is_scheme_char c then after_scheme s' else None
  end.

Definition is_delim (c : ascii) : bool :=
  Ascii.eqb c "/" || Ascii.eqb c "?" || Ascii.eqb c "#".

Fixpoint until_delim (s : string) : string :=
  match s with
  | EmptyString => EmptyString
  | String c s' => if is_delim c then EmptyString else String c (until_delim s')
  end.

Definition plain_netloc (u : string) : option string :=
  let rest :=
    match u with
    | String c _ =>
        if is_alpha c
        then match after_scheme u with Some r => r | None => u end
        else u
    | EmptyString => u
    end in
  Some (if startswith rest "//" then until_delim (slice_from 2 rest)
        else EmptyString).

Fixpoint split_fragment (s : string) : string * string :=
  match s with
  | EmptyString => (EmptyString, EmptyString)
  | String c s' =>
      if Ascii.eqb c "#" then (EmptyString, s')
      else let (u, f) := split_fragment s' in (String c u, f)
  end.

Definition plain_urldefrag (u : string) : option (string * string) :=
  Some (split_fragment u).

End Reporter.

(* ===================================================================== *)
(** * Predicates of the specification                                     *)
(* ===================================================================== *)

(** [s] begins with [p]. *)
Definition begins_with (s p : string) : Prop := exists r, s = p ++ r.

(** [sub] occurs in [s]. *)
Definition occurs_in (sub s : string) : Prop :=
  exists pre post, s = pre ++ sub ++ post.

(** The text begins with one of the markers of a callable. *)
Definition callable_syntax (s : string) : Prop :=
  begins_with s "(() =>" \/ begins_with s "() =>" \/ begins_with s "function".

(** [str.lower] on the ASCII letters: the lower-cased copy the
    specification of the parse stage speaks of. *)
Definition lower_char (c : ascii) : ascii :=
  let n := N_of_ascii c in
  if ((65 <=? n) && (n <=? 90))%N then ascii_of_N (n + 32) else c.

Fixpoint lower (s : string) : string :=
  match s with
  | EmptyString => EmptyString
  | String c r => String (lower_char c) (lower r)
  end.

(** The verdict as the specification words it: the affirmative token
    looked for in a lower-cased copy of the reply. *)
Definition spec_parse_verdict (reply : string) : bool :=
  contains "yes" (lower reply).

(** Every path separator replaced with an underscore. *)
Fixpoint slashes_to_underscores (s : string) : string :=
  match s with
  | EmptyString => EmptyString
  | String c r =>
      String (if Ascii.eqb c "/" then "_"%char else c) (slashes_to_underscores r)
  end.

(** The base name as the specification words it: a leading scheme
    stripped, nothing else removed. *)
Definition spec_sanitized_target (u : string) : string :=
  slashes_to_underscores
    (if startswith u "https://" then slice_from 8 u
     else if startswith u "http://" then slice_from 7 u
     else u).

Definition is_scheme (s : string) : Prop := s = "http://" \/ s = "https://".

(* ===================================================================== *)
(** * Inputs and predicates of the proofs                                 *)
(* ===================================================================== *)

(** A text without leading white space. *)
Definition no_lead_space (s : string) : Prop :=
  match s with
  | EmptyString => True
  | String c _ => isspace c = false
  end.

Section ToolsInputs.

Import Tools.

(** A world in which nothing has happened yet. *)
Definition fresh_world : World := mkWorld [] console_stream [] [].

(** Executed code that rebinds [sys.stdout] and then raises. *)
Definition rebinding_exec
  : string -> option Page -> option page_facts -> M World unit :=
  fun _ _ _ w => (Raise (Exn RuntimeError "boom"), set_stdout (other_stream 7) w).

(** Executed code that rebinds [sys.stdout] and ends. *)
Definition rebinding_exec_quiet
  : string -> option Page -> option page_facts -> M World unit :=
  fun _ _ _ w => (Ret tt, set_stdout (other_stream 7) w).

(** Oracles for the parts of Python a run does not reach. *)
Definition idle_exec : string -> option Page -> option page_facts -> M World unit :=
  fun _ _ _ => ret tt.
Definition idle_input : string -> M World string := fun _ => ret EmptyString.
Definition idle_eval : string -> M World pyval := fun _ => ret v_none.
Definition idle_inherited : string -> outcome pyval :=
  fun name => Ret (v_object name).
Definition idle_call : string -> list pyval -> M World pyval :=
  fun _ _ => ret v_none.

(** A page on which the keyboard fails and everything else answers. *)
Definition broken_keyboard : Page :=
  fun _ c =>
    match c with
    | pg_keyboard_press _ => Raise (Exn RuntimeError "Keyboard.press: Unknown key")
    | _ => Ret "<html></html>"
    end.

(** A page on which clicking fails and everything else answers. *)
Definition broken_click : Page :=
  fun _ c =>
    match c with
    | pg_click _ _ => Raise (Exn RuntimeError "Timeout 7000ms exceeded")
    | _ => Ret "<html></html>"
    end.

(** A page whose cookies cannot be read. *)
Definition broken_cookies : Page :=
  fun _ c =>
    match c with
    | pg_context_cookies => Raise (Exn RuntimeError "Target closed")
    | _ => Ret "<html></html>"
    end.

(** The names [getattr_self] does not reject: the fields, the methods
    and the names that start with two underscores. *)
Definition tools_attribute (name : string) : bool :=
  String.eqb name "_llm" || String.eqb name "default_timeout_ms"
  || String.eqb name "safe" || in_list name tools_methods
  || startswith name "__".

(** A computation that raises nothing [except Exception] would miss. *)
Definition catchable {A} (c : M World A) : Prop :=
  forall w e w', c w = (Raise e, w') -> is_Exception (exn_cls e) = true.

(** A page that raises nothing [except Exception] would miss. *)
Definition page_catchable (page : option Page) : Prop :=
  forall p log c e,
    page = Some p -> p log c = Raise e -> is_Exception (exn_cls e) = true.

End ToolsInputs.

Section ReporterInputs.

Import Reporter.

(** The request the parse stage sends for a report. *)
Definition parse_request (report : string) : list message :=
  [mkMessage "system" parse_prompt; mkMessage "user" report].

(** The request of the summary stage for a given report text. *)
Definition summary_request (report_content : string) : list message :=
  [mkMessage "system" summary_prompt; mkMessage "user" report_content].

(** One document request, one XHR request and one script request. *)
Definition three_requests (doc xhr script : string) : list request :=
  [mkRequest (Some doc) (Some "document");
   mkRequest (Some xhr) (Some "xhr");
   mkRequest (Some script) (Some "script")].

(** The records of the test suite. *)
Definition test_requests : list request :=
  three_requests "https://example.com/" "https://example.com/api/data"
    "https://cdn.example.org/lib.js".

(** A reasoning service that finds every report proven. *)
Definition approving_llm : LLM := fun _ _ => Ret "yes: SQL injection proven".

(** A world with the output directory [out] and no file. *)
Definition empty_out : World := mkWorld {["out"]} ∅ [].

(** The reporter for [https://example.com] writing to [out], after one
    proven finding. *)
Definition reporter_with_finding : reporter :=
  mkReporter ["yes: SQL injection proven"] "https://example.com" "out"
    (filename (__init__ "https://example.com" "out")).

End ReporterInputs.

Section MoreToolsInputs.

Import Tools.

(** The page answered [obs] to the call [c] at some point. *)
Definition page_answered (page : option Page) (c : page_call) (obs : string)
  : Prop :=
  exists p log, page = Some p /\ p log c = Ret obs.

(** A page on which a click fails unless a click was tried just before. *)
Definition flaky_click : Page :=
  fun log c =>
    match c, log with
    | pg_click _ _, pg_click _ _ :: _ => Ret "clicked"
    | pg_click _ _, _ => Raise (Exn RuntimeError "Element is not attached")
    | _, _ => Ret "<html></html>"
    end.

(** A page on which every call is interrupted from the keyboard. *)
Definition interrupted_page : Page :=
  fun _ _ => Raise (Exn KeyboardInterrupt EmptyString).

(** A page on which no selector ever shows up. *)
Definition blank_page : Page :=
  fun _ c =>
    match c with
    | pg_wait_for_selector _ _ => Raise (Exn RuntimeError "Timeout 7000ms exceeded")
    | _ => Ret "<html></html>"
    end.

(** [print(text, end='')] in the executed code: the text goes to the
    buffer [sys.stdout] is bound to. *)
Definition write_stdout (text : string) (w : World) : World :=
  match sys_stdout w with
  | StringIO buf =>
      match buffers w !! buf with
      | Some (old, false) => set_buffers (<[buf := (old ++ text, false)]> (buffers w)) w
      | _ => w
      end
  | _ => w
  end.

(** Executed code that prints a text and ends. *)
Definition printing_exec (text : string)
  : string -> option Page -> option page_facts -> M World unit :=
  fun _ _ _ w => (Ret tt, write_stdout text w).

(** Executed code that rebinds [sys.stdout] and then exits the
    interpreter. *)
Definition exiting_exec
  : string -> option Page -> option page_facts -> M World unit :=
  fun _ _ _ w => (Raise (Exn SystemExit EmptyString), set_stdout (other_stream 7) w).

(** A text of [n] letters. *)
Fixpoint letters (n : nat) : string :=
  match n with
  | O => EmptyString
  | S k => String "a" (letters k)
  end.

End MoreToolsInputs.

Section MoreReporterInputs.

Import Reporter.

(** The request of the judge stage for a transcript. *)
Definition judge_messages (history : list message) : list message :=
  (mkMessage "system" judge_prompt :: history
   ++ [mkMessage "user" judge_request])%list.

(** The place of the report file of a reporter. *)
Definition report_path (self : reporter) : string * string :=
  (output_dir self, filename self ++ ".txt").

(** The place of its summary. *)
Definition summary_path (self : reporter) : string * string :=
  (output_dir self, filename self ++ "_summary.md").

(** A reasoning service that judges with a report and then answers the
    parse stage with [verdict]. *)
Definition scripted_llm (finding verdict : string) : LLM :=
  fun log _ =>
    match log with
    | [] => Ret finding
    | _ => Ret verdict
    end.

(** A reasoning service that is out of reach. *)
Definition failing_llm : LLM :=
  fun _ _ => Raise (Exn RuntimeError "Connection error.").

(** A world without any directory. *)
Definition empty_disk : World := mkWorld ∅ ∅ [].

(** A reasoning service that judges and then goes out of reach. *)
Definition judge_only_llm : LLM :=
  fun log _ =>
    match log with
    | [] => Ret "SQL injection in /login"
    | _ => Raise (Exn RuntimeError "Connection error.")
    end.

(** Code-point order on texts. *)
Definition str_lt (a b : string) : Prop := String.compare a b = Lt.

(** The header names of all the responses, in order. *)
Definition all_header_keys (responses : list response) : list string :=
  concat (map header_keys responses).

(** The count a name has in a list of counts, 0 when it is not there. *)
Fixpoint count_of (name : string) (counts : list (string * nat)) : nat :=
  match counts with
  | [] => 0
  | (k, n) :: rest => if String.eqb k name then n else count_of name rest
  end.

(** How many times a name is in a list of names. *)
Definition occurrences (name : string) (names : list string) : nat :=
  length (List.filter (String.eqb name) names).

(** The counting loop over all header names, from any starting dict. *)
Definition count_keys (keys : list string) (counts : list (string * nat))
  : list (string * nat) :=
  fold_left (fun counts k => bump (str_lower k) counts) keys counts.

(** Counts from the largest to the smallest. *)
Definition count_ge (a b : string * nat) : Prop := snd b <= snd a.

(** The responses of the test suite, with a header name in two
    spellings. *)
Definition test_responses : list response :=
  [mkResponse (Some "https://example.com/") (Some 200%Z)
     (Some [("Server", "nginx"); ("Content-Type", "text/html")]);
   mkResponse (Some "https://example.com/api/data") (Some 200%Z)
     (Some [("content-type", "application/json")])].

End MoreReporterInputs.

(* ===================================================================== *)
(** * Strings                                                             *)
(* ===================================================================== *)

(** Drops the empty text that replacing by nothing leaves in front. *)
Ltac drop_empty_append :=
  repeat match goal with
         | |- context [EmptyString ++ ?x] => change (EmptyString ++ x) with x
         end.

Section StringFacts.

Lemma startswith_spec (s p : string) :
  startswith s p = true <-> begins_with s p.
Proof.
  unfold begins_with. revert s.
  induction p as [|c p IH]; intros s; simpl.
  - split; [intros _; exists s; reflexivity | reflexivity].
  - destruct s as [|d s].
    + split; [discriminate | intros [r H]; discriminate].
    + rewrite andb_true_iff, Ascii.eqb_eq, IH. split.
      * intros [-> [r ->]]. exists r. reflexivity.
      * intros [r H]. injection H as -> ->. split; [reflexivity | exists r; reflexivity].
Qed.

Lemma startswith_false (s p : string) :
  startswith s p = false <-> ~ begins_with s p.
Proof.
  rewrite <- startswith_spec. destruct (startswith s p); split; intros H;
    try reflexivity; try discriminate; try (intros ?; discriminate).
  exfalso. apply H. reflexivity.
Qed.

Lemma slice_from_append (p r : string) :
  slice_from (String.length p) (p ++ r) = r.
Proof. induction p as [|c p IH]; simpl; [destruct r; reflexivity | exact IH]. Qed.

Lemma lstrip_no_lead_space (s : string) : no_lead_space (lstrip s).
Proof.
  induction s as [|c s IH]; simpl; [exact I|].
  destruct (isspace c) eqn:E; [exact IH | exact E].
Qed.

Lemma lstrip_fixed (s : string) : no_lead_space s -> lstrip s = s.
Proof. destruct s as [|c s]; simpl; [reflexivity | intros ->; reflexivity]. Qed.

Lemma rstrip_no_lead_space (s : string) :
  no_lead_space s -> no_lead_space (rstrip s).
Proof.
  destruct s as [|c s]; simpl; [exact id|]. intros H.
  destruct (rstrip s); [rewrite H|]; exact H.
Qed.

Lemma rstrip_cons (c : ascii) (s : string) :
  rstrip s <> EmptyString -> rstrip (String c s) = String c (rstrip s).
Proof. simpl. destruct (rstrip s); [intros H; contradiction H; reflexivity | reflexivity]. Qed.

Lemma rstrip_idempotent (s : string) : rstrip (rstrip s) = rstrip s.
Proof.
  induction s as [|c s IH]; simpl; [reflexivity|].
  destruct (rstrip s) as [|d r] eqn:E.
  - destruct (isspace c) eqn:Ec; simpl; [reflexivity | rewrite Ec; reflexivity].
  - rewrite rstrip_cons; rewrite IH; [reflexivity | discriminate].
Qed.

(** A text kept by [rstrip] has all its suffixes kept. *)
Lemma rstrip_fixed_tail (c : ascii) (s : string) :
  rstrip (String c s) = String c s -> rstrip s = s.
Proof.
  simpl. destruct (rstrip s) as [|d r] eqn:E.
  - destruct (isspace c); [discriminate | intros H; injection H as <-; reflexivity].
  - intros H. injection H as <-. reflexivity.
Qed.

Lemma rstrip_fixed_cons (c : ascii) (s : string) :
  s <> EmptyString -> rstrip s = s -> rstrip (String c s) = String c s.
Proof. intros Hne H. rewrite rstrip_cons; rewrite H; [reflexivity | exact Hne]. Qed.

Lemma rstrip_fixed_suffix (p s : string) :
  rstrip (p ++ s) = p ++ s -> rstrip s = s.
Proof.
  induction p as [|c p IH]; simpl String.append; [exact id|].
  intros H. apply IH. exact (rstrip_fixed_tail _ _ H).
Qed.

Lemma rstrip_fixed_prefix (p s : string) :
  s <> EmptyString -> rstrip s = s -> rstrip (p ++ s) = p ++ s.
Proof.
  intros Hne H. induction p as [|c p IH]; simpl String.append; [exact H|].
  apply rstrip_fixed_cons; [destruct p; simpl; [exact Hne | discriminate] | exact IH].
Qed.

Lemma strip_idempotent (s : string) : strip (strip s) = strip s.
Proof.
  unfold strip.
  rewrite (lstrip_fixed (rstrip (lstrip s))).
  - apply rstrip_idempotent.
  - apply rstrip_no_lead_space, lstrip_no_lead_space.
Qed.

Lemma strip_fixed (s : string) :
  no_lead_space s -> rstrip s = s -> strip s = s.
Proof. intros Hl Hr. unfold strip. rewrite (lstrip_fixed s Hl). exact Hr. Qed.

Lemma rstrip_strip (s : string) : rstrip (strip s) = strip s.
Proof. unfold strip. apply rstrip_idempotent. Qed.

Lemma contains_spec (sub s : string) :
  contains sub s = true <-> occurs_in sub s.
Proof.
  unfold occurs_in. split.
  - induction s as [|c s IH]; simpl; rewrite orb_true_iff.
    + intros [H | H]; [|discriminate].
      apply startswith_spec in H. destruct H as [r ->].
      exists EmptyString, r. reflexivity.
    + intros [H | H].
      * apply startswith_spec in H. destruct H as [r ->].
        exists EmptyString, r. reflexivity.
      * destruct (IH H) as (pre & post & ->).
        exists (String c pre), post. reflexivity.
  - intros (pre & post & ->).
    induction pre as [|c pre IH].
    + assert (H : startswith (sub ++ post) sub = true)
        by (apply startswith_spec; exists post; reflexivity).
      simpl String.append. destruct (sub ++ post); simpl; rewrite H; reflexivity.
    + simpl. rewrite IH. apply orb_true_r.
Qed.

Lemma contains_cons (sub : string) (c : ascii) (s : string) :
  contains sub (String c s) = false ->
  startswith (String c s) sub = false /\ contains sub s = false.
Proof. simpl. intros H. apply orb_false_elim in H. exact H. Qed.

Lemma contains_suffix (sub a b : string) :
  contains sub (a ++ b) = false -> contains sub b = false.
Proof.
  induction a as [|c a IH]; simpl String.append; [exact id|].
  intros H. apply IH. exact (proj2 (contains_cons _ _ _ H)).
Qed.

(** A text in which [old] does not occur is left as it is. *)
Lemma replace_absent (old new s : string) :
  contains old s = false -> replace_from old new 0 s = s.
Proof.
  induction s as [|c s IH]; [reflexivity|]. intros H.
  destruct (contains_cons _ _ _ H) as [Hp Hs].
  simpl. simpl in Hp. rewrite Hp, (IH Hs). reflexivity.
Qed.

(** A prefix in which no occurrence of [old] starts is copied. *)
Lemma replace_keeps_prefix (old new pre t : string) :
  (forall a b, pre = a ++ b -> b <> EmptyString ->
               startswith (b ++ t) old = false) ->
  replace_from old new 0 (pre ++ t) = pre ++ replace_from old new 0 t.
Proof.
  induction pre as [|c pre IH]; intros H; [reflexivity|].
  pose proof (H EmptyString (String c pre) eq_refl ltac:(discriminate)) as H0.
  change (String c pre ++ t) with (String c (pre ++ t)) in *.
  cbn [replace_from]. rewrite H0.
  change (String c pre ++ replace_from old new 0 t)
    with (String c (pre ++ replace_from old new 0 t)).
  f_equal. apply IH.
  intros a b -> Hb. apply (H (String c a) b); [reflexivity | exact Hb].
Qed.

End StringFacts.

(* ===================================================================== *)
(** * Script normalisation                                                *)
(* ===================================================================== *)

Section NormalizeScript.

Import Tools.

Lemma wrap_callable (code : string) :
  callable_syntax (strip code) -> _wrap_js_for_playwright code = strip code.
Proof.
  intros H. unfold _wrap_js_for_playwright.
  assert (E : startswith (strip code) "(() =>" || startswith (strip code) "() =>"
              || startswith (strip code) "function" = true).
  { rewrite !orb_true_iff, !startswith_spec. unfold callable_syntax in H. tauto. }
  cbv zeta. rewrite E. reflexivity.
Qed.

Lemma wrap_not_callable (code : string) :
  ~ callable_syntax (strip code) ->
  _wrap_js_for_playwright code =
  if startswith (strip code) "return "
  then "() => " ++ slice_from 7 (strip code) else strip code.
Proof.
  intros H. unfold _wrap_js_for_playwright.
  assert (E : startswith (strip code) "(() =>" || startswith (strip code) "() =>"
              || startswith (strip code) "function" = false).
  { apply not_true_is_false. rewrite !orb_true_iff, !startswith_spec.
    unfold callable_syntax in H. tauto. }
  cbv zeta. rewrite E. reflexivity.
Qed.

Lemma return_not_callable (e : string) : ~ callable_syntax ("return " ++ e).
Proof.
  unfold callable_syntax. rewrite <- !startswith_spec. simpl.
  intros [H | [H | H]]; discriminate.
Qed.

(** A trimmed text that begins with [return ] has a rest that is not
    empty and is trimmed on the right. *)
Lemma return_rest (e : string) :
  rstrip ("return " ++ e) = "return " ++ e -> e <> EmptyString /\ rstrip e = e.
Proof.
  intros H. split.
  - intros ->. vm_compute in H. discriminate.
  - exact (rstrip_fixed_suffix _ _ H).
Qed.

Lemma strip_arrow (e : string) :
  e <> EmptyString -> rstrip e = e -> strip ("() => " ++ e) = "() => " ++ e.
Proof.
  intros Hne H. apply strip_fixed; [reflexivity|].
  apply rstrip_fixed_prefix; assumption.
Qed.

Lemma strip_return (e : string) :
  e <> EmptyString -> rstrip e = e -> strip ("return " ++ e) = "return " ++ e.
Proof.
  intros Hne H. apply strip_fixed; [reflexivity|].
  apply rstrip_fixed_prefix; assumption.
Qed.

(** C6 (as amended).  With [s] the trimmed input: when [s] begins with a
    marker of a callable the result is [s], the trimmed text; otherwise,
    when [s] is [return ] followed by [e], the result is [() => ]
    followed by [e]; otherwise the result is [s].  Hence the script
    [return X] becomes [() => X] for every [X] that is not empty and
    does not end in white space. *)
Theorem wrap_js_rule_set (code X : string) :
  (callable_syntax (strip code) -> _wrap_js_for_playwright code = strip code) /\
  (~ callable_syntax (strip code) ->
   forall e, strip code = "return " ++ e ->
             _wrap_js_for_playwright code = "() => " ++ e) /\
  (~ callable_syntax (strip code) -> ~ begins_with (strip code) "return " ->
   _wrap_js_for_playwright code = strip code) /\
  (X <> EmptyString -> rstrip X = X ->
   _wrap_js_for_playwright ("return " ++ X) = "() => " ++ X).
Proof.
  split; [apply wrap_callable|]. split; [|split].
  - intros Hn e He. rewrite (wrap_not_callable code Hn), He.
    replace (startswith ("return " ++ e) "return ") with true
      by (symmetry; apply startswith_spec; exists e; reflexivity).
    reflexivity.
  - intros Hn Hr. rewrite (wrap_not_callable code Hn).
    apply startswith_false in Hr. rewrite Hr. reflexivity.
  - intros Hne HX.
    assert (Hs : strip ("return " ++ X) = "return " ++ X) by (apply strip_return; assumption).
    rewrite wrap_not_callable; rewrite Hs; [reflexivity | apply return_not_callable].
Qed.

Lemma wrap_js_rule_set_witness :
  _wrap_js_for_playwright " () => 1 " = "() => 1" /\
  _wrap_js_for_playwright "  return a + b" = "() => a + b" /\
  _wrap_js_for_playwright " document.title " = "document.title" /\
  _wrap_js_for_playwright "return document.title" = "() => document.title".
Proof.
  split; [|split; [|split]].
  - apply (proj1 (wrap_js_rule_set " () => 1 " "")).
    right; left. exists " 1". reflexivity.
  - apply (proj1 (proj2 (wrap_js_rule_set "  return a + b" "")));
      [apply (return_not_callable "a + b") | reflexivity].
  - apply (proj1 (proj2 (proj2 (wrap_js_rule_set " document.title " "")))).
    + intros [H | [H | H]]; apply startswith_spec in H; discriminate H.
    + apply startswith_false. reflexivity.
  - apply (proj2 (proj2 (proj2 (wrap_js_rule_set "" "document.title"))));
      [discriminate | reflexivity].
Defined.

(** C6 as stated fails: an input with white space around a callable is
    returned trimmed, not unchanged, and [return X] with [X] ending in
    white space loses that white space. *)
Lemma wrap_js_not_unchanged :
  callable_syntax (strip " () => 1") /\
  _wrap_js_for_playwright " () => 1" <> " () => 1" /\
  _wrap_js_for_playwright "return x " <> "() => x ".
Proof.
  split; [|split].
  - right; left. exists " 1". reflexivity.
  - vm_compute. discriminate.
  - vm_compute. discriminate.
Qed.

(** C7.  Normalising a script twice gives what normalising it once
    gives. *)
Theorem wrap_js_idempotent (code : string) :
  _wrap_js_for_playwright (_wrap_js_for_playwright code) =
  _wrap_js_for_playwright code.
Proof.
  destruct (startswith (strip code) "(() =>" || startswith (strip code) "() =>"
            || startswith (strip code) "function") eqn:E.
  - assert (Hc : callable_syntax (strip code)).
    { rewrite !orb_true_iff, !startswith_spec in E. unfold callable_syntax. tauto. }
    rewrite (wrap_callable code Hc).
    rewrite (wrap_callable (strip code));
      [apply strip_idempotent | rewrite strip_idempotent; exact Hc].
  - assert (Hn : ~ callable_syntax (strip code)).
    { intros Hc. apply not_true_iff_false in E. apply E.
      rewrite !orb_true_iff, !startswith_spec. unfold callable_syntax in Hc. tauto. }
    rewrite (wrap_not_callable code Hn).
    destruct (startswith (strip code) "return ") eqn:Er.
    + apply startswith_spec in Er. destruct Er as [e He].
      rewrite He. change 7 with (String.length "return ").
      rewrite slice_from_append.
      pose proof (rstrip_strip code) as Hr. rewrite He in Hr.
      destruct (return_rest e Hr) as [Hne Hre].
      rewrite wrap_callable; rewrite (strip_arrow e Hne Hre); [reflexivity|].
      right; left. exists (" " ++ e). reflexivity.
    + rewrite wrap_not_callable; rewrite strip_idempotent;
        [rewrite Er; reflexivity | exact Hn].
Qed.

End NormalizeScript.

(* ===================================================================== *)
(** * The parse stage of the verdict                                      *)
(* ===================================================================== *)

Section ParseStage.

Import Reporter.

Lemma parse_report_run (llm : LLM) (report : string) (w : World) :
  parse_report llm report w =
  match llm (llm_log w) (parse_request report) with
  | Ret reply =>
      (Ret (contains "yes" reply),
       mkWorld (dirs w) (files w) (parse_request report :: llm_log w))
  | Raise e =>
      (Raise e, mkWorld (dirs w) (files w) (parse_request report :: llm_log w))
  end.
Proof.
  unfold parse_report, bind, reason, parse_request. simpl.
  destruct (llm (llm_log w) _); reflexivity.
Qed.

(** C3 (as amended).  When the reasoning service replies, the parse
    stage returns a verdict, and the verdict is positive exactly when
    [yes] occurs somewhere in the reply as it was received: the test is
    case-sensitive and no copy of the reply is lower-cased. *)
Theorem parse_report_substring (llm : LLM) (report reply : string) (w : World) :
  llm (llm_log w) (parse_request report) = Ret reply ->
  exists verdict,
    fst (parse_report llm report w) = Ret verdict /\
    (verdict = true <-> occurs_in "yes" reply).
Proof.
  intros H. rewrite parse_report_run, H. simpl.
  exists (contains "yes" reply). split; [reflexivity | apply contains_spec].
Qed.

Lemma parse_report_substring_witness :
  exists verdict,
    fst (parse_report (fun _ _ => Ret "eyes only") "report"
           (mkWorld ∅ ∅ [])) = Ret verdict /\
    (verdict = true <-> occurs_in "yes" "eyes only").
Proof.
  apply (parse_report_substring (fun _ _ => Ret "eyes only") "report" "eyes only").
  reflexivity.
Defined.

(** C3 as stated fails: the reply [YES] has the affirmative token in its
    lower-cased copy, and the parse stage returns a negative verdict. *)
Lemma parse_report_case_sensitive :
  spec_parse_verdict "YES" = true /\
  fst (parse_report (fun _ _ => Ret "YES") "report" (mkWorld ∅ ∅ [])) = Ret false.
Proof. split; reflexivity. Qed.

End ParseStage.

(* ===================================================================== *)
(** * The base name of the target                                         *)
(* ===================================================================== *)

Section TargetName.

Import Reporter.

Lemma replace_slash (s : string) : replace s "/" "_" = slashes_to_underscores s.
Proof.
  unfold replace. induction s as [|c s IH]; [reflexivity|].
  cbn [replace_from slashes_to_underscores startswith String.length].
  rewrite andb_true_r. destruct (Ascii.eqb c "/"); simpl; rewrite IH; reflexivity.
Qed.

Lemma no_slash_left (s : string) :
  contains "/" (slashes_to_underscores s) = false.
Proof.
  induction s as [|c s IH]; [reflexivity|].
  cbn [slashes_to_underscores contains startswith]. rewrite IH, andb_true_r.
  destruct (Ascii.eqb c "/") eqn:E; [reflexivity | rewrite E; reflexivity].
Qed.

Lemma filename_unfold (u d : string) :
  filename (__init__ u d) =
  slashes_to_underscores
    (replace_from "http://" "" 0 (replace_from "https://" "" 0 u)).
Proof. unfold __init__. cbn [filename]. rewrite replace_slash. reflexivity. Qed.

(** A scheme text has its only colon after [http] or [https], so it
    cannot occur in a text without colon. *)
Lemma no_colon_cons (c : ascii) (s : string) :
  contains ":" (String c s) = false ->
  Ascii.eqb c ":" = false /\ contains ":" s = false.
Proof.
  intros H. destruct (contains_cons _ _ _ H) as [H1 H2].
  cbn [startswith] in H1. rewrite andb_true_r in H1. split; assumption.
Qed.

Lemma no_colon_no_scheme (s old : string) :
  is_scheme old -> contains ":" s = false -> contains old s = false.
Proof.
  intros Hs H. apply not_true_is_false. intros Hc.
  apply contains_spec in Hc. destruct Hc as (pre & post & ->).
  apply contains_suffix in H.
  destruct Hs as [-> | ->]; vm_compute in H;
    repeat (apply no_colon_cons in H; destruct H as [? H]);
    discriminate.
Qed.

(** No occurrence of a scheme text starts in a text without colon that
    is followed by the letter [h]. *)
Lemma no_scheme_across (old b t : string) :
  is_scheme old -> b <> EmptyString -> contains ":" b = false ->
  startswith (b ++ String "h" t) old = false.
Proof.
  intros Hs Hb H.
  destruct b as [|c1 [|c2 [|c3 [|c4 [|c5 [|c6 b]]]]]]; [contradiction Hb; reflexivity| ..];
    repeat (apply no_colon_cons in H; destruct H as [? H]);
    destruct Hs as [-> | ->]; simpl;
    repeat match goal with
           | E : Ascii.eqb ?c ":" = false |- context [Ascii.eqb ?c ":"] =>
               rewrite E; simpl
           end;
    rewrite ?andb_false_r; reflexivity.
Qed.

Lemma replace_after_colon_free (old pre t : string) :
  is_scheme old -> contains ":" pre = false ->
  replace_from old "" 0 (pre ++ String "h" t) =
  pre ++ replace_from old "" 0 (String "h" t).
Proof.
  intros Hs H. apply replace_keeps_prefix.
  intros a b -> Hb. apply no_scheme_across; [exact Hs | exact Hb |].
  exact (contains_suffix _ _ _ H).
Qed.

Lemma contains_app_colon (a b : string) :
  contains ":" a = false -> contains ":" b = false ->
  contains ":" (a ++ b) = false.
Proof.
  intros Ha Hb. induction a as [|c a IH]; [exact Hb|].
  destruct (no_colon_cons _ _ Ha) as [Hc Ha'].
  change (String c a ++ b) with (String c (a ++ b)).
  cbn [contains startswith]. rewrite Hc, (IH Ha'). reflexivity.
Qed.

(** The two passes over a text made of a colon-free part, a scheme text
    and another colon-free part leave the two parts. *)
Lemma inner_scheme_removed (s pre post : string) :
  is_scheme s -> contains ":" pre = false -> contains ":" post = false ->
  replace_from "http://" "" 0 (replace_from "https://" "" 0 (pre ++ s ++ post))
  = pre ++ post.
Proof.
  intros Hs Hpre Hpost.
  assert (Hh : is_scheme "http://") by (left; reflexivity).
  assert (Hhs : is_scheme "https://") by (right; reflexivity).
  pose proof (replace_absent "http://" "" post
                (no_colon_no_scheme post _ Hh Hpost)) as P1.
  pose proof (replace_absent "https://" "" post
                (no_colon_no_scheme post _ Hhs Hpost)) as P2.
  destruct Hs as [-> | ->].
  - change ("http://" ++ post) with (String "h" ("ttp://" ++ post)).
    rewrite (replace_after_colon_free "https://" pre _ Hhs Hpre).
    replace (replace_from "https://" "" 0 (String "h" ("ttp://" ++ post)))
      with (String "h" ("ttp://" ++ post))
      by (simpl; drop_empty_append; rewrite P2; reflexivity).
    rewrite (replace_after_colon_free "http://" pre _ Hh Hpre).
    simpl. drop_empty_append. rewrite P1. reflexivity.
  - change ("https://" ++ post) with (String "h" ("ttps://" ++ post)).
    rewrite (replace_after_colon_free "https://" pre _ Hhs Hpre).
    replace (replace_from "https://" "" 0 (String "h" ("ttps://" ++ post)))
      with post by (simpl; drop_empty_append; rewrite P2; reflexivity).
    apply replace_absent, no_colon_no_scheme; [exact Hh|].
    apply contains_app_colon; assumption.
Qed.

(** C9 (as amended).  The base name never contains a path separator.
    For a URL made of a scheme and a rest in which no scheme text
    occurs, it is the rest with every [/] replaced by [_].  A scheme
    text further inside the URL is removed as well: for a scheme
    followed by a colon-free part, a second scheme text and another
    colon-free part, the base name is made of the two parts only. *)
Theorem filename_sanitized (u d s s' rest pre post : string) :
  contains "/" (filename (__init__ u d)) = false /\
  (is_scheme s ->
   contains "https://" rest = false -> contains "http://" rest = false ->
   filename (__init__ (s ++ rest) d) = slashes_to_underscores rest) /\
  (is_scheme s -> is_scheme s' ->
   contains ":" pre = false -> contains ":" post = false ->
   filename (__init__ (s ++ pre ++ s' ++ post) d) =
   slashes_to_underscores (pre ++ post)).
Proof.
  split; [rewrite filename_unfold; apply no_slash_left|]. split.
  - intros Hs H1 H2. rewrite filename_unfold. f_equal.
    destruct Hs as [-> | ->]; simpl.
    + rewrite (replace_absent _ _ _ H1). simpl. apply replace_absent, H2.
    + rewrite (replace_absent _ _ _ H1). apply replace_absent, H2.
  - intros Hs Hs' Hpre Hpost. rewrite filename_unfold. f_equal.
    pose proof (inner_scheme_removed s' pre post Hs' Hpre Hpost) as E.
    destruct Hs as [-> | ->].
    + replace (replace_from "https://" "" 0 ("http://" ++ pre ++ s' ++ post))
        with ("http://" ++ replace_from "https://" "" 0 (pre ++ s' ++ post))
        by reflexivity.
      replace (replace_from "http://" "" 0
                 ("http://" ++ replace_from "https://" "" 0 (pre ++ s' ++ post)))
        with (replace_from "http://" "" 0
                (replace_from "https://" "" 0 (pre ++ s' ++ post)))
        by reflexivity.
      exact E.
    + replace (replace_from "https://" "" 0 ("https://" ++ pre ++ s' ++ post))
        with (replace_from "https://" "" 0 (pre ++ s' ++ post))
        by reflexivity.
      exact E.
Qed.

Lemma filename_sanitized_witness :
  filename (__init__ "https://example.com:8443/app/login" "out")
  = "example.com:8443_app_login" /\
  filename (__init__ "https://a.com/?next=http://b.com/x" "out")
  = "a.com_?next=b.com_x".
Proof.
  split.
  - apply (proj1 (proj2 (filename_sanitized "" "out" "https://" ""
                           "example.com:8443/app/login" "" "")));
      [right; reflexivity | reflexivity | reflexivity].
  - apply (proj2 (proj2 (filename_sanitized "" "out" "https://" "http://" ""
                           "a.com/?next=" "b.com/x")));
      [right; reflexivity | left; reflexivity | reflexivity | reflexivity].
Defined.

(** C9 as stated fails: the scheme text inside the query is removed,
    where the specification keeps it. *)
Lemma filename_inner_scheme_removed :
  filename (__init__ "https://a.com/?next=http://b.com" "out") = "a.com_?next=b.com" /\
  spec_sanitized_target "https://a.com/?next=http://b.com" = "a.com_?next=http:__b.com" /\
  filename (__init__ "https://a.com/?next=http://b.com" "out")
  <> spec_sanitized_target "https://a.com/?next=http://b.com".
Proof. split; [reflexivity | split; [reflexivity | vm_compute; discriminate]]. Qed.

End TargetName.

(* ===================================================================== *)
(** * The crawl summary                                                   *)
(* ===================================================================== *)

Section CrawlSummary.

Import Reporter.

Lemma insert_sorted_In (x u : string) (l : list string) :
  In u (insert_sorted x l) <-> u = x \/ In u l.
Proof.
  induction l as [|y l IH]; simpl.
  - split; [intros [H | []]; left; symmetry; exact H | intros [H | []]; left; symmetry; exact H].
  - destruct (String.compare x y) eqn:E; simpl.
    + apply String.compare_eq_iff in E. subst y. split; [tauto|].
      intros [-> | H]; [left; reflexivity | exact H].
    + split; [intros [H | H]; [left; symmetry; exact H | right; exact H]|].
      intros [H | H]; [left; symmetry; exact H | right; exact H].
    + rewrite IH. tauto.
Qed.

Lemma sorted_set_In (u : string) (l : list string) :
  In u (sorted_set l) <-> In u l.
Proof.
  induction l as [|x l IH]; simpl; [tauto|].
  rewrite insert_sorted_In, IH. split; intros [H | H]; auto.
Qed.

Lemma truthy_urls_In (u : string) (rs : list request) :
  In u (truthy_urls rs) <->
  u <> EmptyString /\ exists r, In r rs /\ url r = Some u.
Proof.
  induction rs as [|r rs IH]; simpl.
  - split; [intros [] | intros [_ [r [[] _]]]].
  - destruct (url r) as [[|c v]|] eqn:E; simpl; rewrite ?IH.
    + split.
      * intros [Hne [r' [Hin Hu]]]. split; [exact Hne|]. exists r'. auto.
      * intros [Hne [r' [[<- | Hin] Hu]]].
        -- rewrite E in Hu. injection Hu as <-. contradiction Hne; reflexivity.
        -- split; [exact Hne | exists r'; auto].
    + split.
      * intros [<- | [Hne [r' [Hin Hu]]]].
        -- split; [discriminate | exists r; auto].
        -- split; [exact Hne | exists r'; auto].
      * intros [Hne [r' [[<- | Hin] Hu]]].
        -- left. rewrite E in Hu. injection Hu as <-. reflexivity.
        -- right. split; [exact Hne | exists r'; auto].
    + split.
      * intros [Hne [r' [Hin Hu]]]. split; [exact Hne | exists r'; auto].
      * intros [Hne [r' [[<- | Hin] Hu]]]; [rewrite E in Hu; discriminate|].
        split; [exact Hne | exists r'; auto].
Qed.

Variable urlparse_netloc : string -> option string.
Variable urldefrag : string -> option (string * string).

Local Abbreviation crawl := (generate_safe_crawl_summary urlparse_netloc urldefrag).
Local Abbreviation origin := (same_origin urlparse_netloc).
Local Abbreviation canonical := (canon urldefrag).

(** C5 (as amended).  For one same-origin document request, one
    same-origin XHR request and one cross-origin script request, in any
    order, and third-party inclusion disabled, the visited-URL set holds
    the document URL and the XHR URL, and nothing else; the endpoint set
    holds the XHR URL only (URLs without their fragment). *)
Theorem crawl_three_requests (self : reporter) (requests : list request)
    (host doc xhr script : string) :
  urlparse_netloc (starting_url self) = Some host ->
  doc <> EmptyString -> xhr <> EmptyString ->
  origin host doc = true -> origin host xhr = true ->
  origin host script = false ->
  Permutation requests (three_requests doc xhr script) ->
  exists data,
    crawl self requests false = Some data /\
    (forall u, In u (visited_urls data) <->
               u = canonical doc \/ u = canonical xhr) /\
    (forall u, In u (js_endpoints data) <-> u = canonical xhr).
Proof.
  intros Hhost Hd Hx Od Ox Os Hperm.
  unfold generate_safe_crawl_summary. rewrite Hhost. cbn [negb].
  eexists. split; [reflexivity|]. cbn [visited_urls js_endpoints].
  assert (Hreq : forall r, In r requests <-> In r (three_requests doc xhr script)).
  { intros r. split; apply Permutation_in; [exact Hperm | symmetry; exact Hperm]. }
  split; intros u; rewrite sorted_set_In, in_map_iff.
  - split.
    + intros [v [<- Hv]]. apply filter_In in Hv. destruct Hv as [Hv Ho].
      apply truthy_urls_In in Hv. destruct Hv as [_ [r [Hr Hu]]].
      apply Hreq in Hr. simpl in Hr.
      destruct Hr as [<- | [<- | [<- | []]]]; simpl in Hu; injection Hu as <-.
      * left; reflexivity.
      * right; reflexivity.
      * rewrite Os in Ho. discriminate.
    + intros [-> | ->].
      * exists doc. split; [reflexivity|]. apply filter_In. split; [|exact Od].
        apply truthy_urls_In. split; [exact Hd|].
        exists (mkRequest (Some doc) (Some "document")).
        split; [apply Hreq; left; reflexivity | reflexivity].
      * exists xhr. split; [reflexivity|]. apply filter_In. split; [|exact Ox].
        apply truthy_urls_In. split; [exact Hx|].
        exists (mkRequest (Some xhr) (Some "xhr")).
        split; [apply Hreq; right; left; reflexivity | reflexivity].
  - split.
    + intros [v [<- Hv]]. apply filter_In in Hv. destruct Hv as [Hv Ho].
      apply truthy_urls_In in Hv. destruct Hv as [_ [r [Hr Hu]]].
      apply filter_In in Hr. destruct Hr as [Hr Hx'].
      apply Hreq in Hr. simpl in Hr.
      destruct Hr as [<- | [<- | [<- | []]]]; simpl in Hu; injection Hu as <-;
        try (vm_compute in Hx'; discriminate).
      reflexivity.
    + intros ->. exists xhr. split; [reflexivity|]. apply filter_In. split; [|exact Ox].
      apply truthy_urls_In. split; [exact Hx|].
      exists (mkRequest (Some xhr) (Some "xhr")). split; [|reflexivity].
      apply filter_In. split; [apply Hreq; right; left; reflexivity | reflexivity].
Qed.

End CrawlSummary.

Section CrawlExamples.

Import Reporter.

Lemma crawl_three_requests_witness :
  exists data,
    generate_safe_crawl_summary plain_netloc plain_urldefrag
      (__init__ "https://example.com" "out") test_requests false = Some data /\
    (forall u, In u (visited_urls data) <->
               u = canon plain_urldefrag "https://example.com/" \/
               u = canon plain_urldefrag "https://example.com/api/data") /\
    (forall u, In u (js_endpoints data) <->
               u = canon plain_urldefrag "https://example.com/api/data").
Proof.
  apply (crawl_three_requests plain_netloc plain_urldefrag
           (__init__ "https://example.com" "out") test_requests "example.com"
           "https://example.com/" "https://example.com/api/data"
           "https://cdn.example.org/lib.js");
    [reflexivity | discriminate | discriminate | reflexivity | reflexivity
    | reflexivity | apply Permutation_refl].
Defined.

(** C5 as stated fails: on the records of the test suite the visited-URL
    set holds the XHR URL next to the document URL. *)
Lemma crawl_visited_has_xhr :
  fmap visited_urls
    (generate_safe_crawl_summary plain_netloc plain_urldefrag
       (__init__ "https://example.com" "out") test_requests false)
  = Some ["https://example.com/"; "https://example.com/api/data"] /\
  fmap visited_urls
    (generate_safe_crawl_summary plain_netloc plain_urldefrag
       (__init__ "https://example.com" "out") test_requests false)
  <> Some ["https://example.com/"].
Proof. split; [reflexivity | vm_compute; discriminate]. Qed.

End CrawlExamples.

(* ===================================================================== *)
(** * The dispatcher                                                      *)
(* ===================================================================== *)

Section Interpreter.

Import Tools.

Variable py_exec : string -> option Page -> option page_facts -> M World unit.

(** C4.  With safe mode on, [click], [fill], [submit] and
    [python_interpreter] return an observation that begins with
    [SAFE_MODE:] and leave the world as it was: no call is made on the
    page, whatever the selector, the value and the code. *)
Theorem safe_mode_blocks_mutations (self : tools) (page : option Page)
    (css_selector value code : string) (w : World) :
  safe self = true ->
  (click self page css_selector w = (Ret "SAFE_MODE: click disabled", w) /\
   begins_with "SAFE_MODE: click disabled" "SAFE_MODE:") /\
  (fill self page css_selector value w = (Ret "SAFE_MODE: fill disabled", w) /\
   begins_with "SAFE_MODE: fill disabled" "SAFE_MODE:") /\
  (submit self page css_selector w = (Ret "SAFE_MODE: submit disabled", w) /\
   begins_with "SAFE_MODE: submit disabled" "SAFE_MODE:") /\
  (python_interpreter py_exec self code page w =
     (Ret "SAFE_MODE: python_interpreter disabled", w) /\
   begins_with "SAFE_MODE: python_interpreter disabled" "SAFE_MODE:").
Proof.
  intros Hsafe. unfold click, fill, submit, python_interpreter.
  rewrite Hsafe. unfold ret.
  repeat split; apply startswith_spec; reflexivity.
Qed.

Lemma sys_stdout_close_buffer (n : nat) (w : World) :
  sys_stdout (close_buffer n w) = sys_stdout w.
Proof. unfold close_buffer. destruct (buffers w !! n) as [[? ?]|]; reflexivity. Qed.

Lemma gather_facts_returns (page : option Page) (w : World) :
  (forall p, page = Some p -> forall log c, returned (p log c) = true) ->
  returned (fst (gather_facts page w)) = true.
Proof.
  intros H. destruct page as [p|]; [|reflexivity].
  specialize (H p eq_refl). unfold gather_facts, bind, call_page. simpl.
  repeat match goal with
         | |- context [p ?l ?c] =>
             let E := fresh "E" in
             pose proof (H l c) as E; destruct (p l c); [clear E | discriminate E]
         end.
  reflexivity.
Qed.

(** The world in which the namespace is built: a fresh buffer is bound
    to [sys.stdout]. *)
Lemma python_interpreter_guarded (self : tools) (code : string)
    (page : option Page) (w : World) :
  safe self = false -> existsb (fun f => contains f code) forbidden = false ->
  python_interpreter py_exec self code page w =
  let buf := length (buffers w) in
  match gather_facts page
          (set_stdout (StringIO buf)
             (set_buffers (buffers w ++ [(EmptyString, false)]) w)) with
  | (Ret facts, w2) =>
      try_finally
        (try_except
           (py_exec code page facts ;;;
            output <- getvalue buf ;;
            ret (if (4000 <? String.length output)%nat
                 then slice_to 4000 output ++ "... [truncated]"
                 else output))
           (fun e => ret ("PYTHON_ERROR: " ++ exn_msg e)))
        (fun w' => close_buffer buf (set_stdout (sys_stdout w) w')) w2
  | (Raise e, w2) => (Raise e, w2)
  end.
Proof.
  intros Hs Hf. unfold python_interpreter. rewrite Hs, Hf. reflexivity.
Qed.

(** Once the namespace is built, whatever the executed code does, the
    binding of [sys.stdout] is put back. *)
Lemma python_interpreter_run (self : tools) (code : string)
    (page : option Page) (w : World) :
  sys_stdout (snd (python_interpreter py_exec self code page w)) = sys_stdout w \/
  (returned (fst (python_interpreter py_exec self code page w)) = false /\
   returned (fst (gather_facts page
                    (set_stdout (StringIO (length (buffers w)))
                       (set_buffers (buffers w ++ [(EmptyString, false)]) w))))
   = false).
Proof.
  destruct (safe self) eqn:Hs;
    [left; unfold python_interpreter; rewrite Hs; reflexivity|].
  destruct (existsb (fun f => contains f code) forbidden) eqn:Hf;
    [left; unfold python_interpreter; rewrite Hs, Hf; reflexivity|].
  rewrite (python_interpreter_guarded self code page w Hs Hf). cbv zeta.
  destruct (gather_facts page _) as [[facts|e] w2].
  - left. unfold try_finally.
    match goal with |- context [try_except ?c ?h w2] => destruct (try_except c h w2) end.
    cbn [snd]. rewrite sys_stdout_close_buffer. reflexivity.
  - right. split; reflexivity.
Qed.

(** X24.  Every call of [python_interpreter] that returns has put
    [sys.stdout] back to what it was before the call; and once the
    namespace is built (there is no page, or the page has answered the
    four queries), [sys.stdout] is put back whatever the executed code
    does: ending, raising any exception, [SystemExit] included, or
    rebinding [sys.stdout] itself. *)
Theorem python_interpreter_stdout_frame (self : tools) (code : string)
    (page : option Page) (w : World) :
  (returned (fst (python_interpreter py_exec self code page w)) = true ->
   sys_stdout (snd (python_interpreter py_exec self code page w)) = sys_stdout w) /\
  (returned (fst (gather_facts page
                    (set_stdout (StringIO (length (buffers w)))
                       (set_buffers (buffers w ++ [(EmptyString, false)]) w))))
   = true ->
   sys_stdout (snd (python_interpreter py_exec self code page w)) = sys_stdout w).
Proof.
  pose proof (python_interpreter_run self code page w) as H.
  split.
  - intros Hr. destruct H as [H | [H _]]; [exact H | congruence].
  - intros Hg. destruct H as [H | [_ H]]; [exact H | congruence].
Qed.

End Interpreter.

Section InterpreterExamples.

Import Tools.

Lemma safe_mode_blocks_mutations_witness :
  click (mkTools None 7000 true) None "#id" fresh_world
  = (Ret "SAFE_MODE: click disabled", fresh_world) /\
  python_interpreter idle_exec (mkTools None 7000 true) "print('hi')" None fresh_world
  = (Ret "SAFE_MODE: python_interpreter disabled", fresh_world).
Proof.
  pose proof (safe_mode_blocks_mutations idle_exec (mkTools None 7000 true)
                None "#id" "x" "print('hi')" fresh_world eq_refl) as H.
  split; [exact (proj1 (proj1 H)) | exact (proj1 (proj2 (proj2 (proj2 H))))].
Defined.

Lemma python_interpreter_stdout_frame_witness :
  sys_stdout (snd (python_interpreter rebinding_exec_quiet default_tools
                     "sys.stdout = None" (Some broken_click) fresh_world))
  = console_stream /\
  sys_stdout (snd (python_interpreter exiting_exec default_tools
                     "sys.stdout = None; raise SystemExit" (Some broken_click)
                     fresh_world))
  = console_stream.
Proof.
  split.
  - apply (proj1 (python_interpreter_stdout_frame rebinding_exec_quiet
                    default_tools "sys.stdout = None" (Some broken_click)
                    fresh_world)).
    reflexivity.
  - apply (proj2 (python_interpreter_stdout_frame exiting_exec
                    default_tools "sys.stdout = None; raise SystemExit"
                    (Some broken_click) fresh_world)).
    reflexivity.
Defined.

(** Without a page and with code that ends or raises an [Exception],
    the call returns. *)
Lemma python_interpreter_returns
    (py_exec : string -> option Page -> option page_facts -> M World unit)
    (self : tools) (code : string) (w : World) :
  catchable (py_exec code None None) ->
  returned (fst (python_interpreter py_exec self code None w)) = true.
Proof.
  intros Hc.
  destruct (safe self) eqn:Hs;
    [unfold python_interpreter; rewrite Hs; reflexivity|].
  destruct (existsb (fun f => contains f code) forbidden) eqn:Hf;
    [unfold python_interpreter; rewrite Hs, Hf; reflexivity|].
  rewrite (python_interpreter_guarded py_exec self code None w Hs Hf).
  cbv zeta. cbn [gather_facts ret]. unfold try_finally, try_except, bind.
  destruct (py_exec code None None _) as [[[]|e] w1] eqn:E.
  - unfold getvalue. destruct (buffers w1 !! _) as [[text []]|]; reflexivity.
  - rewrite (Hc _ _ _ E). reflexivity.
Qed.

(** C10 at the failing input.  [sys.stdout] is rebound to the buffer
    and the page is queried before the [try]: when the page raises
    there, the exception leaves [python_interpreter], the [finally]
    clause is never reached and [sys.stdout] stays bound to the buffer;
    the redirection leaks past the call. *)
Lemma python_interpreter_setup_failure :
  python_interpreter idle_exec default_tools "print(current_url)"
    (Some broken_cookies) fresh_world
  = (Raise (Exn RuntimeError "Target closed"),
     mkWorld [pg_context_cookies; pg_context] (StringIO 0)
       [(EmptyString, false)] []) /\
  sys_stdout (snd (python_interpreter idle_exec default_tools
                     "print(current_url)" (Some broken_cookies) fresh_world))
  <> sys_stdout fresh_world.
Proof. split; [reflexivity | discriminate]. Qed.

End InterpreterExamples.

Section Dispatch.

Import Tools.

Variable py_exec : string -> option Page -> option page_facts -> M World unit.
Variable py_input : string -> M World string.
Variable self : tools.
Variable py_eval_expr : string -> M World pyval.
Variable py_getattr_inherited : string -> outcome pyval.
Variable py_call_other : string -> list pyval -> M World pyval.

Local Abbreviation dispatch :=
  (execute_tool py_exec py_input self py_eval_expr py_getattr_inherited
     py_call_other).
Local Abbreviation evaluate :=
  (eval_self py_exec py_input self py_eval_expr py_getattr_inherited
     py_call_other).

Lemma getattr_unresolved (name : string) :
  tools_attribute name = false ->
  getattr_self self py_getattr_inherited name =
  Raise (Exn AttributeError ("'Tools' object has no attribute '" ++ name ++ "'")).
Proof.
  unfold tools_attribute, getattr_self. intros H.
  repeat (apply orb_false_elim in H; destruct H as [H ?]).
  repeat match goal with E : _ = false |- _ => rewrite E; clear E end.
  reflexivity.
Qed.

(** An exception that [except Exception] catches becomes the
    observation of the dispatcher. *)
Lemma execute_tool_converts (page : option Page) (d : descriptor)
    (w w' : World) (e : exn) :
  evaluate page d w = (Raise e, w') -> is_Exception (exn_cls e) = true ->
  dispatch page d w = (Ret (v_str ("Error executing tool: " ++ exn_msg e)), w').
Proof.
  intros He Hc. unfold execute_tool, try_except. rewrite He, Hc. reflexivity.
Qed.

(** C1 (as amended).  A descriptor whose name is no attribute of the
    dispatcher object (no field, no method, no name with two leading
    underscores) evaluates nothing: the world is left as it was, no
    argument is evaluated, and the observation is
    [Error executing tool: 'Tools' object has no attribute '<name>'];
    a text that is not an expression gives [Error executing tool: ]
    followed by the parser's message; and every exception of the
    evaluation that [except Exception] catches is turned into such an
    observation.  Names that resolve are evaluated, on the allow-list or
    not. *)
Theorem execute_tool_unresolved (page : option Page) (name msg : string)
    (args : list arg_expr) (d : descriptor) (e : exn) (w w' : World) :
  (tools_attribute name = false ->
   dispatch page (d_attr name) w =
     (Ret (v_str ("Error executing tool: 'Tools' object has no attribute '"
                  ++ name ++ "'")), w) /\
   dispatch page (d_call name args) w =
     (Ret (v_str ("Error executing tool: 'Tools' object has no attribute '"
                  ++ name ++ "'")), w)) /\
  dispatch page (d_invalid msg) w =
    (Ret (v_str ("Error executing tool: " ++ msg)), w) /\
  (evaluate page d w = (Raise e, w') -> is_Exception (exn_cls e) = true ->
   dispatch page d w =
     (Ret (v_str ("Error executing tool: " ++ exn_msg e)), w')).
Proof.
  split; [|split; [reflexivity | apply execute_tool_converts]].
  intros H. split.
  - refine (execute_tool_converts page (d_attr name) w w
              (Exn AttributeError _) _ eq_refl).
    unfold eval_self, lift. rewrite (getattr_unresolved name H). reflexivity.
  - refine (execute_tool_converts page (d_call name args) w w
              (Exn AttributeError _) _ eq_refl).
    unfold eval_self, lift, bind. rewrite (getattr_unresolved name H). reflexivity.
Qed.

(** [presskey] hands the exception of the page to its caller. *)
Lemma presskey_propagates (p : Page) (key : string) (w : World) (e : exn) :
  p (page_log w) (pg_keyboard_press key) = Raise e ->
  presskey (Some p) key w = (Raise e, log_call (pg_keyboard_press key) w).
Proof. intros H. unfold presskey, bind, call_page. rewrite H. reflexivity. Qed.

Lemma catchable_call_page (page : option Page) (c : page_call) :
  page_catchable page -> catchable (call_page page c).
Proof.
  intros Hp w e w' H. destruct page as [p|]; simpl in H.
  - injection H as H _. exact (Hp p _ _ _ eq_refl H).
  - injection H as <- _. reflexivity.
Qed.

Lemma catchable_bind {A B} (c : M World A) (k : A -> M World B) :
  catchable c -> (forall a, catchable (k a)) -> catchable (bind c k).
Proof.
  intros Hc Hk w e w' H. unfold bind in H.
  destruct (c w) as [[a|e0] w0] eqn:E.
  - exact (Hk a _ _ _ H).
  - injection H as <- _. exact (Hc _ _ _ E).
Qed.

Lemma catchable_retry_loop {A} (func : M World A) (n : nat) (last : option exn) :
  catchable func ->
  (forall e, last = Some e -> is_Exception (exn_cls e) = true) ->
  catchable (retry_loop func n last).
Proof.
  intros Hf. revert last. induction n as [|n IH]; intros last Hl w e w' H.
  - simpl in H. destruct last as [e0|]; injection H as <- _;
      [apply Hl; reflexivity | reflexivity].
  - simpl in H. unfold try_except in H.
    destruct (func w) as [[a|e0] w0] eqn:E; [discriminate|].
    rewrite (Hf _ _ _ E) in H.
    apply (IH (Some e0)) in H; [exact H|].
    intros e1 [= <-]. exact (Hf _ _ _ E).
Qed.

Lemma catchable_with_retries {A} (func : M World A) (retries : Z) :
  catchable func -> catchable (_with_retries func retries).
Proof. intros H. apply catchable_retry_loop; [exact H | discriminate]. Qed.

(** A guarded body whose handler returns: the operation returns. *)
Lemma try_except_returns (c : M World string) (tag : string) (w : World) :
  catchable c ->
  returned (fst (try_except c (fun e => ret (tag ++ exn_msg e)) w)) = true.
Proof.
  intros Hc. unfold try_except.
  destruct (c w) as [[a|e] w'] eqn:E; [reflexivity|].
  rewrite (Hc _ _ _ E). reflexivity.
Qed.

(** The operations with a [try] around their body return an observation
    whatever the page answers, short of an exception outside
    [Exception]. *)
Lemma guarded_operations_return (page : option Page)
    (js_code css_selector value url : string) (w : World) :
  page_catchable page ->
  returned (fst (execute_js self page js_code w)) = true /\
  returned (fst (click self page css_selector w)) = true /\
  returned (fst (fill self page css_selector value w)) = true /\
  returned (fst (submit self page css_selector w)) = true /\
  returned (fst (goto self page url w)) = true /\
  returned (fst (refresh self page w)) = true /\
  returned (fst (discover_forms self page w)) = true.
Proof.
  intros Hp.
  pose proof (catchable_call_page page) as Hcall.
  unfold execute_js, click, fill, submit, goto, refresh, discover_forms.
  destruct (safe self);
    repeat split; try reflexivity; apply try_except_returns;
    repeat first [ apply Hcall, Hp
                 | apply catchable_with_retries
                 | apply catchable_bind; [|intros ?] ].
Qed.

End Dispatch.

Section DispatchExamples.

Import Tools.

Local Abbreviation run_tool :=
  (execute_tool idle_exec idle_input default_tools idle_eval idle_inherited
     idle_call).

Lemma execute_tool_unresolved_witness :
  run_tool None (d_call "os_system" [a_expr "page.reload()"]) fresh_world =
    (Ret (v_str "Error executing tool: 'Tools' object has no attribute 'os_system'"),
     fresh_world) /\
  run_tool (Some broken_keyboard) (d_call "presskey" [a_page; a_str "Enter"])
    fresh_world =
    (Ret (v_str "Error executing tool: Keyboard.press: Unknown key"),
     log_call (pg_keyboard_press "Enter") fresh_world).
Proof.
  pose proof (execute_tool_unresolved idle_exec idle_input default_tools
                idle_eval idle_inherited idle_call) as H.
  split.
  - apply (proj1 (H None "os_system" "" [a_expr "page.reload()"]
                    (d_attr "") (Exn TypeError "") fresh_world fresh_world)).
    reflexivity.
  - apply (proj2 (proj2 (H (Some broken_keyboard) "" ""  []
                    (d_call "presskey" [a_page; a_str "Enter"])
                    (Exn RuntimeError "Keyboard.press: Unknown key")
                    fresh_world
                    (log_call (pg_keyboard_press "Enter") fresh_world))));
      reflexivity.
Defined.

(** C1 as stated fails: names outside the allow-list resolve and are
    evaluated, and what comes back is no error observation. *)
Lemma execute_tool_no_allow_list :
  in_list "default_timeout_ms" allow_list = false /\
  run_tool None (d_attr "default_timeout_ms") fresh_world =
    (Ret (v_int 7000), fresh_world) /\
  in_list "_wrap_js_for_playwright" allow_list = false /\
  run_tool None (d_call "_wrap_js_for_playwright" [a_str "return 1"]) fresh_world =
    (Ret (v_str "() => 1"), fresh_world).
Proof. repeat split. Qed.

(** C2 at the failing input: the key press fails on the page and
    [presskey] raises to its caller, where [click] on a page whose click
    fails returns its tagged observation. *)
Lemma presskey_raises :
  presskey (Some broken_keyboard) "Enter" fresh_world =
    (Raise (Exn RuntimeError "Keyboard.press: Unknown key"),
     log_call (pg_keyboard_press "Enter") fresh_world) /\
  fst (click default_tools (Some broken_click) "#go" fresh_world) =
    Ret "CLICK_ERROR: Timeout 7000ms exceeded".
Proof. split; reflexivity. Qed.

End DispatchExamples.

(* ===================================================================== *)
(** * Reports on disk                                                     *)
(* ===================================================================== *)

Section Persistence.

Import Reporter.

Variable llm : LLM.

(** [save_reports] writes [<output_dir>/<filename>.txt]. *)
Lemma save_reports_writes (self : reporter) (w : World) :
  output_dir self ∈ dirs w ->
  save_reports self w =
  (Ret tt,
   mkWorld (dirs w)
     (<[(output_dir self, filename self ++ ".txt") :=
          join delimiter (reports self)]> (files w))
     (llm_log w)).
Proof.
  intros H. unfold save_reports, write_file.
  rewrite bool_decide_eq_true_2 by exact H. reflexivity.
Qed.

(** It leaves the file the summary stage reads alone, unless the output
    directory is [security_results]. *)
Lemma save_reports_other_dir (self : reporter) (w : World) :
  output_dir self <> "security_results" ->
  files (snd (save_reports self w)) !! ("security_results", filename self ++ ".txt")
  = files w !! ("security_results", filename self ++ ".txt").
Proof.
  intros Hne. unfold save_reports, write_file.
  destruct (bool_decide (output_dir self ∈ dirs w)); [|reflexivity].
  cbn [snd files]. apply lookup_insert_ne. intros [= H]. exact (Hne H).
Qed.

(** The summary stage reads [security_results/<filename>.txt]; when
    that file is missing it goes on with a fixed text. *)
Lemma summary_request_sent (self : reporter) (w : World) :
  hd_error (llm_log (snd (generate_summary_report llm self w))) =
  Some (summary_request
          (match files w !! ("security_results", filename self ++ ".txt") with
           | Some text => text
           | None => "No vulns were reported."
           end)).
Proof.
  unfold generate_summary_report, bind, try_except_cls, read_file, reason,
    mkdir, write_file, summary_request.
  destruct (files w !! _) as [text|]; cbn;
    match goal with |- context [llm ?l ?m] => destruct (llm l m) end;
    cbn; try reflexivity;
    match goal with |- context [bool_decide ?P] => destruct (bool_decide P) end;
    reflexivity.
Qed.

(** With an output directory of its own, what [save_reports] wrote is
    not what the summary stage sends. *)
Lemma summary_misses_saved_reports (self : reporter) (w : World) :
  output_dir self <> "security_results" ->
  files w !! ("security_results", filename self ++ ".txt") = None ->
  hd_error (llm_log (snd (generate_summary_report llm self
                            (snd (save_reports self w))))) =
  Some (summary_request "No vulns were reported.").
Proof.
  intros Hne Hnone. rewrite summary_request_sent.
  rewrite (save_reports_other_dir self w Hne), Hnone. reflexivity.
Qed.

End Persistence.

Section PersistenceExamples.

Import Reporter.

(** C8 at the failing input: with the output directory [out], the
    finding is saved to [out/example.com.txt], and the summary stage,
    reading [security_results/example.com.txt], sends the text for a
    missing file. *)
Lemma summary_ignores_output_dir :
  files (snd (save_reports reporter_with_finding empty_out))
    !! ("out", "example.com.txt") = Some "yes: SQL injection proven" /\
  hd_error (llm_log (snd (generate_summary_report approving_llm
                            reporter_with_finding
                            (snd (save_reports reporter_with_finding empty_out)))))
  = Some (summary_request "No vulns were reported.").
Proof.
  split.
  - rewrite save_reports_writes
      by (change ("out" ∈ ({["out"]} : gset string)); set_solver).
    cbn [snd files]. apply lookup_insert_eq.
  - apply summary_misses_saved_reports; [discriminate | reflexivity].
Qed.

End PersistenceExamples.

(* ===================================================================== *)
(** * More on script normalisation                                        *)
(* ===================================================================== *)

Section NormalizedScripts.

Import Tools.

Lemma wrap_cases (code : string) :
  (callable_syntax (strip code) /\ _wrap_js_for_playwright code = strip code) \/
  (exists e, strip code = "return " ++ e /\
             _wrap_js_for_playwright code = "() => " ++ e) \/
  (startswith (strip code) "return " = false /\
   _wrap_js_for_playwright code = strip code).
Proof.
  destruct (startswith (strip code) "(() =>" || startswith (strip code) "() =>"
            || startswith (strip code) "function") eqn:E.
  - left. assert (Hc : callable_syntax (strip code)).
    { rewrite !orb_true_iff, !startswith_spec in E. unfold callable_syntax. tauto. }
    split; [exact Hc | apply wrap_callable, Hc].
  - right. assert (Hn : ~ callable_syntax (strip code)).
    { intros Hc. apply not_true_iff_false in E. apply E.
      rewrite !orb_true_iff, !startswith_spec. unfold callable_syntax in Hc. tauto. }
    rewrite (wrap_not_callable code Hn).
    destruct (startswith (strip code) "return ") eqn:Er.
    + left. apply startswith_spec in Er. destruct Er as [e He].
      exists e. split; [exact He|]. rewrite He.
      change 7 with (String.length "return "). rewrite slice_from_append.
      reflexivity.
    + right. split; reflexivity.
Qed.

Lemma callable_no_return (s : string) :
  callable_syntax s -> startswith s "return " = false.
Proof. intros [[r ->] | [[r ->] | [r ->]]]; reflexivity. Qed.

Lemma wrap_output_trimmed (code : string) :
  strip (_wrap_js_for_playwright code) = _wrap_js_for_playwright code.
Proof.
  destruct (wrap_cases code) as [[_ ->] | [[e [He ->]] | [_ ->]]];
    try apply strip_idempotent.
  pose proof (rstrip_strip code) as Hr. rewrite He in Hr.
  destruct (return_rest e Hr) as [Hne Hre]. apply strip_arrow; assumption.
Qed.

Lemma wrap_output_no_return (code : string) :
  startswith (_wrap_js_for_playwright code) "return " = false.
Proof.
  destruct (wrap_cases code) as [[Hc ->] | [[e [He ->]] | [Hr ->]]].
  - apply callable_no_return, Hc.
  - reflexivity.
  - exact Hr.
Qed.

(** A trimmed script that does not begin with [return ] is kept. *)
Lemma wrap_keeps (s : string) :
  strip s = s -> startswith s "return " = false ->
  _wrap_js_for_playwright s = s.
Proof.
  intros Hs Hr.
  destruct (wrap_cases s) as [[_ ->] | [[e [He _]] | [_ ->]]]; try exact Hs.
  rewrite Hs in He. rewrite He in Hr. discriminate Hr.
Qed.

(** X1.  The normalised script has no white space around it and never
    begins with [return ]; a script with these two properties is left
    as it is. *)
Theorem wrap_js_output_shape (code s : string) :
  strip (_wrap_js_for_playwright code) = _wrap_js_for_playwright code /\
  startswith (_wrap_js_for_playwright code) "return " = false /\
  (strip s = s -> startswith s "return " = false ->
   _wrap_js_for_playwright s = s).
Proof.
  split; [apply wrap_output_trimmed|].
  split; [apply wrap_output_no_return | apply wrap_keeps].
Qed.

Lemma wrap_js_output_shape_witness :
  _wrap_js_for_playwright "document.title" = "document.title".
Proof.
  apply (proj2 (proj2 (wrap_js_output_shape "" "document.title"))); reflexivity.
Defined.

(** X2.  [execute_js] evaluates the normalised script, once and with
    the default timeout: the page sees a script that does not begin with
    [return ], and handing [execute_js] a script that is already
    normalised changes nothing. *)
Theorem execute_js_normalises (self : tools) (p : Page) (js_code : string)
    (w : World) :
  page_log (snd (execute_js self (Some p) js_code w)) =
    pg_evaluate (_wrap_js_for_playwright js_code) (Some (default_timeout_ms self))
    :: page_log w /\
  startswith (_wrap_js_for_playwright js_code) "return " = false /\
  execute_js self (Some p) (_wrap_js_for_playwright js_code) w =
    execute_js self (Some p) js_code w.
Proof.
  split; [|split; [apply wrap_output_no_return|]].
  - unfold execute_js, try_except, call_page.
    destruct (p (page_log w) _) as [a|e]; [reflexivity|].
    destruct (is_Exception (exn_cls e)); reflexivity.
  - unfold execute_js.
    rewrite (wrap_keeps _ (wrap_output_trimmed js_code)
               (wrap_output_no_return js_code)).
    reflexivity.
Qed.

End NormalizedScripts.

(* ===================================================================== *)
(** * The retry wrapper                                                   *)
(* ===================================================================== *)

Section Retries.

Import Tools.

Lemma repeat_shift {A} (c : A) (k : nat) (l : list A) :
  (repeat c k ++ c :: l)%list = (repeat c (S k) ++ l)%list.
Proof. induction k as [|k IH]; simpl; [reflexivity | rewrite IH; reflexivity]. Qed.

(** The calls a retried page call makes are copies of that call, at
    most as many as there are rounds, and at least one when there is a
    round. *)
Lemma retry_loop_calls (p : Page) (c : page_call) (n : nat)
    (last : option exn) (w : World) :
  exists k,
    k <= n /\ (1 <= n -> 1 <= k) /\
    page_log (snd (retry_loop (call_page (Some p) c) n last w)) =
      (repeat c k ++ page_log w)%list.
Proof.
  revert last w. induction n as [|n IH]; intros last w.
  - exists 0. split; [lia|]. split; [lia|]. simpl. destruct last; reflexivity.
  - cbn [retry_loop]. unfold try_except.
    change (call_page (Some p) c w) with (p (page_log w) c, log_call c w).
    destruct (p (page_log w) c) as [a|e] eqn:E.
    + exists 1. split; [lia|]. split; [lia | reflexivity].
    + destruct (is_Exception (exn_cls e)).
      * destruct (IH (Some e) (log_call c w)) as (k & Hk & _ & Hlog).
        exists (S k). split; [lia|]. split; [lia|].
        rewrite Hlog. cbn [log_call page_log]. apply repeat_shift.
      * exists 1. split; [lia|]. split; [lia | reflexivity].
Qed.

(** When every attempt fails with an [Exception], all the rounds are
    used and the failure of the last one is raised. *)
Lemma retry_loop_exhausts (p : Page) (c : page_call) (n : nat)
    (last : option exn) (w : World) :
  (forall log, exists e, p log c = Raise e /\ is_Exception (exn_cls e) = true) ->
  page_log (snd (retry_loop (call_page (Some p) c) (S n) last w)) =
    (repeat c (S n) ++ page_log w)%list /\
  fst (retry_loop (call_page (Some p) c) (S n) last w) =
    p (repeat c n ++ page_log w)%list c.
Proof.
  intros Hfail. revert last w. induction n as [|n IH]; intros last w.
  - cbn [retry_loop]. unfold try_except.
    change (call_page (Some p) c w) with (p (page_log w) c, log_call c w).
    destruct (Hfail (page_log w)) as (e & He & Hc). rewrite He, Hc.
    split; [reflexivity | simpl; rewrite He; reflexivity].
  - remember (S n) as m. cbn [retry_loop]. unfold try_except.
    change (call_page (Some p) c w) with (p (page_log w) c, log_call c w).
    destruct (Hfail (page_log w)) as (e & He & Hc). rewrite He, Hc. subst m.
    destruct (IH (Some e) (log_call c w)) as [Hlog Hres].
    rewrite Hlog, Hres. cbn [log_call page_log].
    rewrite !repeat_shift. split; reflexivity.
Qed.

(** When the first [j] attempts fail with an [Exception] and the next
    one answers, the answer is returned after [j + 1] calls. *)
Lemma retry_loop_succeeds (p : Page) (c : page_call) (a : string)
    (j n : nat) (last : option exn) (w : World) :
  (forall i, i < j ->
     exists e, p (repeat c i ++ page_log w)%list c = Raise e /\
               is_Exception (exn_cls e) = true) ->
  p (repeat c j ++ page_log w)%list c = Ret a ->
  j < n ->
  retry_loop (call_page (Some p) c) n last w =
    (Ret a, mkWorld (repeat c (S j) ++ page_log w)%list (sys_stdout w)
              (buffers w) (prompts w)).
Proof.
  revert n last w. induction j as [|j IH]; intros n last w Hfail Hok Hn.
  - destruct n as [|n]; [lia|]. cbn [retry_loop]. unfold try_except.
    change (call_page (Some p) c w) with (p (page_log w) c, log_call c w). simpl in Hok. rewrite Hok. reflexivity.
  - destruct n as [|n]; [lia|]. cbn [retry_loop]. unfold try_except.
    change (call_page (Some p) c w) with (p (page_log w) c, log_call c w).
    destruct (Hfail 0 ltac:(lia)) as (e & He & Hc). simpl in He.
    rewrite He, Hc.
    rewrite (IH n (Some e) (log_call c w)).
    + cbn [log_call page_log sys_stdout buffers prompts].
      rewrite repeat_shift. reflexivity.
    + intros i Hi. destruct (Hfail (S i) ltac:(lia)) as (e' & He' & Hc').
      exists e'. split; [|exact Hc'].
      cbn [log_call page_log]. rewrite repeat_shift. exact He'.
    + cbn [log_call page_log]. rewrite repeat_shift. exact Hok.
    + lia.
Qed.

(** X3.  A retried page call makes between one and [retries + 1] calls
    on the page, all of them the same call. *)
Theorem with_retries_bounded (p : Page) (c : page_call) (retries : Z)
    (w : World) :
  (0 <= retries)%Z ->
  exists k,
    1 <= k <= Z.to_nat (retries + 1) /\
    page_log (snd (_with_retries (call_page (Some p) c) retries w)) =
      (repeat c k ++ page_log w)%list.
Proof.
  intros Hr. unfold _with_retries.
  destruct (retry_loop_calls p c (Z.to_nat (retries + 1)) None w)
    as (k & Hk & H1 & Hlog).
  exists k. split; [split; [apply H1; lia | exact Hk] | exact Hlog].
Qed.

Lemma with_retries_bounded_witness :
  exists k,
    1 <= k <= Z.to_nat (2 + 1) /\
    page_log (snd (_with_retries
                     (call_page (Some broken_click) (pg_click "#go" 7000)) 2
                     fresh_world)) =
      (repeat (pg_click "#go" 7000) k ++ page_log fresh_world)%list.
Proof.
  apply (with_retries_bounded broken_click (pg_click "#go" 7000) 2 fresh_world).
  lia.
Defined.

(** X4.  When every attempt fails with an [Exception], the call is made
    exactly [retries + 1] times and what the last attempt raised is
    raised to the caller. *)
Theorem with_retries_exhausted (p : Page) (c : page_call) (retries : Z)
    (w : World) :
  (0 <= retries)%Z ->
  (forall log, exists e, p log c = Raise e /\ is_Exception (exn_cls e) = true) ->
  page_log (snd (_with_retries (call_page (Some p) c) retries w)) =
    (repeat c (Z.to_nat (retries + 1)) ++ page_log w)%list /\
  fst (_with_retries (call_page (Some p) c) retries w) =
    p (repeat c (Z.to_nat retries) ++ page_log w)%list c.
Proof.
  intros Hr Hfail. unfold _with_retries.
  replace (Z.to_nat (retries + 1)) with (S (Z.to_nat retries)) by lia.
  apply retry_loop_exhausts, Hfail.
Qed.

Lemma with_retries_exhausted_witness :
  page_log (snd (_with_retries
                   (call_page (Some broken_click) (pg_click "#go" 7000)) 2
                   fresh_world)) =
    [pg_click "#go" 7000; pg_click "#go" 7000; pg_click "#go" 7000] /\
  fst (_with_retries (call_page (Some broken_click) (pg_click "#go" 7000)) 2
         fresh_world) =
    Raise (Exn RuntimeError "Timeout 7000ms exceeded").
Proof.
  apply (with_retries_exhausted broken_click (pg_click "#go" 7000) 2 fresh_world);
    [lia|].
  intros log. exists (Exn RuntimeError "Timeout 7000ms exceeded").
  split; reflexivity.
Defined.

(** X5.  When the first [j] attempts fail with an [Exception] and the
    next one answers, with [j] at most [retries], the answer is returned
    after [j + 1] calls and nothing tells the caller that there were
    retries. *)
Theorem with_retries_first_success (p : Page) (c : page_call) (a : string)
    (j : nat) (retries : Z) (w : World) :
  (forall i, i < j ->
     exists e, p (repeat c i ++ page_log w)%list c = Raise e /\
               is_Exception (exn_cls e) = true) ->
  p (repeat c j ++ page_log w)%list c = Ret a ->
  (Z.of_nat j <= retries)%Z ->
  _with_retries (call_page (Some p) c) retries w =
    (Ret a, mkWorld (repeat c (S j) ++ page_log w)%list (sys_stdout w)
              (buffers w) (prompts w)).
Proof.
  intros Hfail Hok Hj. unfold _with_retries.
  apply retry_loop_succeeds; [exact Hfail | exact Hok | lia].
Qed.

(** X6.  With a negative [retries] no attempt is made and a [TypeError]
    is raised; and an exception outside [Exception] is not retried. *)
Theorem with_retries_edges {A} (func : M World A) (p : Page) (c : page_call)
    (retries : Z) (e : exn) (w : World) :
  ((retries < 0)%Z ->
   _with_retries func retries w =
     (Raise (Exn TypeError "exceptions must derive from BaseException"), w)) /\
  ((0 <= retries)%Z -> p (page_log w) c = Raise e ->
   is_Exception (exn_cls e) = false ->
   _with_retries (call_page (Some p) c) retries w = (Raise e, log_call c w)).
Proof.
  split.
  - intros H. unfold _with_retries.
    replace (Z.to_nat (retries + 1)) with 0 by lia. reflexivity.
  - intros Hr He Hc. unfold _with_retries.
    replace (Z.to_nat (retries + 1)) with (S (Z.to_nat retries)) by lia.
    cbn [retry_loop]. unfold try_except.
    change (call_page (Some p) c w) with (p (page_log w) c, log_call c w).
    rewrite He, Hc. reflexivity.
Qed.

End Retries.

Section RetriesExamples.

Import Tools.

Lemma with_retries_first_success_witness :
  _with_retries (call_page (Some flaky_click) (pg_click "#go" 7000)) 2 fresh_world
  = (Ret "clicked",
     mkWorld [pg_click "#go" 7000; pg_click "#go" 7000] console_stream [] []).
Proof.
  apply (with_retries_first_success flaky_click (pg_click "#go" 7000) "clicked"
           1 2 fresh_world); [|reflexivity | lia].
  intros i Hi. assert (i = 0) as -> by lia.
  exists (Exn RuntimeError "Element is not attached"). split; reflexivity.
Defined.

Lemma with_retries_edges_witness :
  _with_retries (call_page (Some broken_click) (pg_click "#go" 7000)) (-1)
    fresh_world
  = (Raise (Exn TypeError "exceptions must derive from BaseException"),
     fresh_world) /\
  _with_retries (call_page (Some interrupted_page) (pg_click "#go" 7000)) 2
    fresh_world
  = (Raise (Exn KeyboardInterrupt EmptyString),
     log_call (pg_click "#go" 7000) fresh_world).
Proof.
  split.
  - apply (proj1 (with_retries_edges
                    (call_page (Some broken_click) (pg_click "#go" 7000))
                    broken_click (pg_click "#go" 7000) (-1)
                    (Exn TypeError EmptyString) fresh_world)).
    lia.
  - apply (proj2 (with_retries_edges
                    (call_page (Some interrupted_page) (pg_click "#go" 7000))
                    interrupted_page (pg_click "#go" 7000) 2
                    (Exn KeyboardInterrupt EmptyString) fresh_world));
      [lia | reflexivity | reflexivity].
Defined.

End RetriesExamples.

(* ===================================================================== *)
(** * Observations of the guarded operations                              *)
(* ===================================================================== *)

Section Observations.

Import Tools.

Variable self : tools.

Lemma retry_loop_exhausts_world (p : Page) (c : page_call) (n : nat)
    (last : option exn) (w : World) :
  (forall log, exists e, p log c = Raise e /\ is_Exception (exn_cls e) = true) ->
  retry_loop (call_page (Some p) c) (S n) last w =
    (p (repeat c n ++ page_log w)%list c,
     mkWorld (repeat c (S n) ++ page_log w)%list (sys_stdout w) (buffers w)
       (prompts w)).
Proof.
  intros Hfail. revert last w. induction n as [|n IH]; intros last w.
  - cbn [retry_loop]. unfold try_except.
    change (call_page (Some p) c w) with (p (page_log w) c, log_call c w).
    destruct (Hfail (page_log w)) as (e & He & Hc). simpl. rewrite He, Hc.
    reflexivity.
  - remember (S n) as m. cbn [retry_loop]. unfold try_except.
    change (call_page (Some p) c w) with (p (page_log w) c, log_call c w).
    destruct (Hfail (page_log w)) as (e & He & Hc). rewrite He, Hc. subst m.
    rewrite (IH (Some e) (log_call c w)).
    cbn [log_call page_log sys_stdout buffers prompts].
    rewrite !repeat_shift. reflexivity.
Qed.

(** X7.  When the selector never shows up, [click], [fill] and [submit]
    wait three times and stop there: the page is not clicked, filled or
    asked for a locator, and the observation carries the tag of the
    operation and the message of the last wait. *)
Theorem selector_never_found (p : Page) (css_selector value : string)
    (w : World) :
  safe self = false ->
  (forall log, exists e,
      p log (pg_wait_for_selector css_selector (default_timeout_ms self)) = Raise e
      /\ is_Exception (exn_cls e) = true) ->
  let wait := pg_wait_for_selector css_selector (default_timeout_ms self) in
  let w' := mkWorld ([wait; wait; wait] ++ page_log w)%list (sys_stdout w)
              (buffers w) (prompts w) in
  exists e,
    p ([wait; wait] ++ page_log w)%list wait = Raise e /\
    click self (Some p) css_selector w = (Ret ("CLICK_ERROR: " ++ exn_msg e), w') /\
    fill self (Some p) css_selector value w = (Ret ("FILL_ERROR: " ++ exn_msg e), w') /\
    submit self (Some p) css_selector w = (Ret ("SUBMIT_ERROR: " ++ exn_msg e), w').
Proof.
  intros Hsafe Hfail wait w'.
  destruct (Hfail (repeat wait 2 ++ page_log w)%list) as (e & He & Hc).
  exists e. split; [exact He|].
  assert (Hr : _with_retries (call_page (Some p) wait) 2 w = (Raise e, w')).
  { unfold _with_retries. change (Z.to_nat (2 + 1)) with 3.
    rewrite (retry_loop_exhausts_world p wait 2 None w Hfail).
    fold wait in He. rewrite He. reflexivity. }
  unfold click, fill, submit. rewrite Hsafe.
  unfold try_except, bind. fold wait. rewrite Hr, Hc.
  repeat split.
Qed.

Lemma try_except_tagged (c : M World string) (tag obs : string) (w : World) :
  fst (try_except c (fun e => ret (tag ++ exn_msg e)) w) = Ret obs ->
  fst (c w) = Ret obs \/ begins_with obs tag.
Proof.
  unfold try_except. destruct (c w) as [[a|e] w'].
  - left. assumption.
  - destruct (is_Exception (exn_cls e)); [|discriminate].
    intros [= <-]. right. exists (exn_msg e). reflexivity.
Qed.

Lemma bind_last {A} (c : M World A) (k : M World string) (obs : string)
    (w : World) :
  fst (bind c (fun _ => k) w) = Ret obs -> exists w1, fst (k w1) = Ret obs.
Proof.
  unfold bind. destruct (c w) as [[a|e] w1]; [|discriminate].
  intros H. exists w1. exact H.
Qed.

Lemma call_page_answer (page : option Page) (c : page_call) (obs : string)
    (w : World) :
  fst (call_page page c w) = Ret obs -> page_answered page c obs.
Proof.
  destruct page as [p|]; [|discriminate].
  intros H. exists p, (page_log w). split; [reflexivity | exact H].
Qed.

(** X8.  What a guarded operation returns is an answer of the page (the
    markup read last, or the value of the script), or begins with the
    tag of that operation, or, in safe mode, with [SAFE_MODE: ]. *)
Theorem observations_are_tagged (page : option Page)
    (js_code css_selector value url obs : string) (w : World) :
  (fst (execute_js self page js_code w) = Ret obs ->
   begins_with obs "JS_ERROR: " \/
   page_answered page
     (pg_evaluate (_wrap_js_for_playwright js_code)
        (Some (default_timeout_ms self))) obs) /\
  (fst (click self page css_selector w) = Ret obs ->
   begins_with obs "SAFE_MODE: " \/ begins_with obs "CLICK_ERROR: " \/
   page_answered page (pg_inner_html "html") obs) /\
  (fst (fill self page css_selector value w) = Ret obs ->
   begins_with obs "SAFE_MODE: " \/ begins_with obs "FILL_ERROR: " \/
   page_answered page (pg_inner_html "html") obs) /\
  (fst (submit self page css_selector w) = Ret obs ->
   begins_with obs "SAFE_MODE: " \/ begins_with obs "SUBMIT_ERROR: " \/
   page_answered page (pg_inner_html "html") obs) /\
  (fst (goto self page url w) = Ret obs ->
   begins_with obs "GOTO_ERROR: " \/
   page_answered page (pg_inner_html "html") obs) /\
  (fst (refresh self page w) = Ret obs ->
   begins_with obs "REFRESH_ERROR: " \/
   page_answered page (pg_inner_html "html") obs) /\
  (fst (discover_forms self page w) = Ret obs ->
   begins_with obs "DISCOVER_FORMS_ERROR: " \/
   page_answered page
     (pg_evaluate discover_forms_js (Some (default_timeout_ms self))) obs).
Proof.
  unfold execute_js, click, fill, submit, goto, refresh, discover_forms.
  destruct (safe self);
    repeat split; intros H;
    try (injection H as <-; left; apply startswith_spec; reflexivity);
    apply try_except_tagged in H; destruct H as [H | H]; auto;
    repeat (apply bind_last in H; destruct H as [? H]);
    apply call_page_answer in H; auto.
Qed.

End Observations.

Section ObservationsExamples.

Import Tools.

Lemma selector_never_found_witness :
  click default_tools (Some blank_page) "#missing" fresh_world =
    (Ret "CLICK_ERROR: Timeout 7000ms exceeded",
     mkWorld [pg_wait_for_selector "#missing" 7000;
              pg_wait_for_selector "#missing" 7000;
              pg_wait_for_selector "#missing" 7000] console_stream [] []).
Proof.
  destruct (selector_never_found default_tools blank_page "#missing" "x"
              fresh_world eq_refl) as (e & He & Hclick & _).
  - intros log. exists (Exn RuntimeError "Timeout 7000ms exceeded").
    split; reflexivity.
  - injection He as <-. exact Hclick.
Defined.

Lemma observations_are_tagged_witness :
  begins_with "CLICK_ERROR: Timeout 7000ms exceeded" "SAFE_MODE: " \/
  begins_with "CLICK_ERROR: Timeout 7000ms exceeded" "CLICK_ERROR: " \/
  page_answered (Some broken_click) (pg_inner_html "html")
    "CLICK_ERROR: Timeout 7000ms exceeded".
Proof.
  apply (proj1 (proj2 (observations_are_tagged default_tools (Some broken_click)
                         "" "#go" "" "" "CLICK_ERROR: Timeout 7000ms exceeded"
                         fresh_world))).
  reflexivity.
Defined.

End ObservationsExamples.

(* ===================================================================== *)
(** * The guards and the output cap of the interpreter                    *)
(* ===================================================================== *)

Section InterpreterGuards.

Import Tools.

Variable py_exec : string -> option Page -> option page_facts -> M World unit.
Variable self : tools.

(** X9.  Code in which one of the four Playwright texts occurs is never
    executed: the world is left as it was and the observation is the
    refusal of safe mode when safe mode is on, the Playwright refusal
    otherwise. *)
Theorem python_interpreter_refuses_playwright (code f : string)
    (page : option Page) (w : World) :
  In f forbidden -> occurs_in f code ->
  python_interpreter py_exec self code page w =
    (Ret (if safe self
          then "SAFE_MODE: python_interpreter disabled"
          else "PYTHON_ERROR: Playwright launch is not allowed from python_interpreter. Use existing page context."),
     w).
Proof.
  intros Hin Hocc. unfold python_interpreter.
  destruct (safe self); [reflexivity|].
  assert (E : existsb (fun f => contains f code) forbidden = true).
  { apply existsb_exists. exists f. split; [exact Hin | apply contains_spec, Hocc]. }
  rewrite E. reflexivity.
Qed.

Lemma str_length_app (a b : string) :
  String.length (a ++ b) = String.length a + String.length b.
Proof. induction a as [|c a IH]; simpl; [reflexivity | rewrite IH; reflexivity]. Qed.

Lemma length_slice_to (n : nat) (s : string) :
  String.length (slice_to n s) = Nat.min n (String.length s).
Proof.
  revert s. induction n as [|n IH]; intros [|c s]; simpl; try reflexivity.
  rewrite IH. reflexivity.
Qed.

Lemma slice_to_prefix (n : nat) (s : string) : begins_with s (slice_to n s).
Proof.
  revert s. induction n as [|n IH]; intros s.
  - exists s. destruct s; reflexivity.
  - destruct s as [|c s]; [exists EmptyString; reflexivity|].
    destruct (IH s) as [r Hr]. exists r. cbn [slice_to].
    change (String c (slice_to n s) ++ r) with (String c (slice_to n s ++ r)).
    rewrite <- Hr. reflexivity.
Qed.

(** The cap applied to the captured output. *)
Lemma cap_cases (n : nat) (output : string) :
  ((String.length output <= n)%nat /\
   (if (n <? String.length output)%nat
    then slice_to n output ++ "... [truncated]" else output) = output) \/
  ((n < String.length output)%nat /\
   (if (n <? String.length output)%nat
    then slice_to n output ++ "... [truncated]" else output)
   = slice_to n output ++ "... [truncated]" /\
   String.length (slice_to n output ++ "... [truncated]") = (n + 15)%nat).
Proof.
  destruct (Nat.ltb_spec n (String.length output)) as [H | H].
  - right. split; [exact H|]. split; [reflexivity|].
    rewrite str_length_app, length_slice_to.
    change (String.length "... [truncated]") with 15. lia.
  - left. split; [exact H | reflexivity].
Qed.

(** X10.  When the executed code ends and has printed [text], the
    observation is [text] itself if it has at most 4000 characters, and
    otherwise its first 4000 characters followed by [... [truncated]],
    4015 characters in all. *)
Theorem python_interpreter_output_cap (code text : string) (w w1 : World) :
  safe self = false ->
  existsb (fun f => contains f code) forbidden = false ->
  py_exec code None None
    (set_stdout (StringIO (length (buffers w)))
       (set_buffers (buffers w ++ [(EmptyString, false)]) w)) = (Ret tt, w1) ->
  buffers w1 !! length (buffers w) = Some (text, false) ->
  exists obs,
    fst (python_interpreter py_exec self code None w) = Ret obs /\
    begins_with text (slice_to 4000 text) /\
    ((String.length text <= 4000)%nat -> obs = text) /\
    ((4000 < String.length text)%nat ->
     obs = slice_to 4000 text ++ "... [truncated]" /\ String.length obs = 4015).
Proof.
  intros Hs Hf Hexec Hbuf.
  rewrite (python_interpreter_guarded py_exec self code None w Hs Hf).
  cbv zeta. cbn [gather_facts ret]. unfold try_finally, try_except, bind.
  rewrite Hexec. unfold getvalue. rewrite Hbuf. unfold ret. cbn [fst].
  eexists. split; [reflexivity|]. split; [apply slice_to_prefix|].
  destruct (cap_cases 4000 text) as [[Hle ->] | (Hlt & -> & Hlen)].
  - split; [reflexivity | lia].
  - split; [lia|]. intros _. split; [reflexivity | exact Hlen].
Qed.

End InterpreterGuards.

Section InterpreterGuardsExamples.

Import Tools.

Lemma python_interpreter_refuses_playwright_witness :
  python_interpreter idle_exec default_tools
    "from playwright.sync_api import sync_playwright" None fresh_world =
    (Ret "PYTHON_ERROR: Playwright launch is not allowed from python_interpreter. Use existing page context.",
     fresh_world).
Proof.
  apply (python_interpreter_refuses_playwright idle_exec default_tools
           "from playwright.sync_api import sync_playwright" "from playwright"
           None fresh_world).
  - right; right; left. reflexivity.
  - exists EmptyString, ".sync_api import sync_playwright". reflexivity.
Defined.

Lemma python_interpreter_output_cap_witness :
  exists obs,
    fst (python_interpreter (printing_exec "hello") default_tools
           "print('hello', end='')" None fresh_world) = Ret obs /\
    begins_with "hello" (slice_to 4000 "hello") /\
    ((String.length "hello" <= 4000)%nat -> obs = "hello") /\
    ((4000 < String.length "hello")%nat ->
     obs = slice_to 4000 "hello" ++ "... [truncated]" /\ String.length obs = 4015).
Proof.
  apply (python_interpreter_output_cap (printing_exec "hello") default_tools
           "print('hello', end='')" "hello" fresh_world
           (mkWorld [] (StringIO 0) [("hello", false)] []));
    reflexivity.
Defined.

(** Four thousand and one letters printed: the observation has 4015
    characters. *)
Lemma python_interpreter_truncates_long_output :
  option_map String.length
    (match fst (python_interpreter (printing_exec (letters 4001)) default_tools
                  "print('a' * 4001, end='')" None fresh_world) with
     | Ret obs => Some obs
     | Raise _ => None
     end) = Some 4015.
Proof. vm_compute. reflexivity. Qed.

End InterpreterGuardsExamples.

(* ===================================================================== *)
(** * Dispatching the named operations                                    *)
(* ===================================================================== *)

Section DispatchOperations.

Import Tools.

Variable py_exec : string -> option Page -> option page_facts -> M World unit.
Variable py_input : string -> M World string.
Variable self : tools.
Variable py_eval_expr : string -> M World pyval.
Variable py_getattr_inherited : string -> outcome pyval.
Variable py_call_other : string -> list pyval -> M World pyval.

Local Abbreviation dispatch :=
  (execute_tool py_exec py_input self py_eval_expr py_getattr_inherited
     py_call_other).
Local Abbreviation evaluate :=
  (eval_self py_exec py_input self py_eval_expr py_getattr_inherited
     py_call_other).

(** A computation that raises nothing [except Exception] would catch. *)
Lemma try_except_raises (c : M World string) (tag : string) (w w' : World)
    (e : exn) :
  try_except c (fun e => ret (tag ++ exn_msg e)) w = (Raise e, w') ->
  is_Exception (exn_cls e) = false.
Proof.
  unfold try_except. destruct (c w) as [[a|e0] w0]; [discriminate|].
  destruct (is_Exception (exn_cls e0)) eqn:E; [discriminate|].
  intros [= <- _]. exact E.
Qed.

Lemma try_except_passes {A} (c : M World A) (h : exn -> M World A) (w : World) :
  (forall e w', c w = (Raise e, w') -> is_Exception (exn_cls e) = false) ->
  try_except c h w = c w.
Proof.
  intros H. unfold try_except. destruct (c w) as [[a|e] w'] eqn:E; [reflexivity|].
  rewrite (H e w' eq_refl). reflexivity.
Qed.

Lemma str_result_raises (c : M World string) (w w' : World) (e : exn) :
  str_result c w = (Raise e, w') -> c w = (Raise e, w').
Proof.
  unfold str_result, bind. destruct (c w) as [[a|e0] w0]; [discriminate|].
  intros [= -> ->]. reflexivity.
Qed.

(** Dispatching an operation that raises nothing [except Exception]
    would catch gives the operation. *)
Lemma dispatch_of (page : option Page) (d : descriptor)
    (c : M World string) (w : World) :
  evaluate page d w = str_result c w ->
  (forall e w', c w = (Raise e, w') -> is_Exception (exn_cls e) = false) ->
  dispatch page d w = str_result c w.
Proof.
  intros He Hc. unfold execute_tool.
  rewrite try_except_passes; [exact He|].
  intros e w' H. rewrite He in H. apply str_result_raises in H.
  exact (Hc e w' H).
Qed.

Lemma gated_raises (gate : bool) (refusal tag : string) (c : M World string)
    (w w' : World) (e : exn) :
  (if gate then ret refusal
   else try_except c (fun e => ret (tag ++ exn_msg e))) w = (Raise e, w') ->
  is_Exception (exn_cls e) = false.
Proof.
  destruct gate; [discriminate | intros H; exact (try_except_raises _ _ _ _ _ H)].
Qed.

(** X11.  For the operations with a [try] around their body, and for
    [complete], dispatching [name(page, args)] gives what the operation
    itself gives, as a string value: the handler of the dispatcher does
    not come into play. *)
Theorem dispatch_runs_operation (page : option Page)
    (js_code css_selector value url : string) (w : World) :
  dispatch page (d_call "execute_js" [a_page; a_str js_code]) w =
    str_result (execute_js self page js_code) w /\
  dispatch page (d_call "click" [a_page; a_str css_selector]) w =
    str_result (click self page css_selector) w /\
  dispatch page (d_call "fill" [a_page; a_str css_selector; a_str value]) w =
    str_result (fill self page css_selector value) w /\
  dispatch page (d_call "submit" [a_page; a_str css_selector]) w =
    str_result (submit self page css_selector) w /\
  dispatch page (d_call "goto" [a_page; a_str url]) w =
    str_result (goto self page url) w /\
  dispatch page (d_call "refresh" [a_page]) w =
    str_result (refresh self page) w /\
  dispatch page (d_call "discover_forms" [a_page]) w =
    str_result (discover_forms self page) w /\
  dispatch page (d_call "complete" []) w = (Ret (v_str "Completed"), w).
Proof.
  repeat split.
  - apply dispatch_of;
      [destruct page; reflexivity
      | intros e w' H; exact (try_except_raises _ _ _ _ _ H)].
  - apply dispatch_of;
      [destruct page; reflexivity
      | intros e w' H; exact (gated_raises _ _ _ _ _ _ _ H)].
  - apply dispatch_of;
      [destruct page; reflexivity
      | intros e w' H; exact (gated_raises _ _ _ _ _ _ _ H)].
  - apply dispatch_of;
      [destruct page; reflexivity
      | intros e w' H; exact (gated_raises _ _ _ _ _ _ _ H)].
  - apply dispatch_of;
      [destruct page; reflexivity
      | intros e w' H; exact (try_except_raises _ _ _ _ _ H)].
  - apply dispatch_of;
      [destruct page; reflexivity
      | intros e w' H; exact (try_except_raises _ _ _ _ _ H)].
  - apply dispatch_of;
      [destruct page; reflexivity
      | intros e w' H; exact (try_except_raises _ _ _ _ _ H)].
Qed.

(** X12.  The dispatcher raises nothing that [except Exception] would
    catch; in particular the failure of [presskey], which the operation
    itself lets through, comes back as [Error executing tool: ] followed
    by the message. *)
Theorem dispatch_catches (page : option Page) (d : descriptor) (p : Page)
    (key : string) (e e' : exn) (w w' : World) :
  (dispatch page d w = (Raise e, w') -> is_Exception (exn_cls e) = false) /\
  (p (page_log w) (pg_keyboard_press key) = Raise e' ->
   is_Exception (exn_cls e') = true ->
   dispatch (Some p) (d_call "presskey" [a_page; a_str key]) w =
     (Ret (v_str ("Error executing tool: " ++ exn_msg e')),
      log_call (pg_keyboard_press key) w)).
Proof.
  split.
  - unfold execute_tool, try_except.
    destruct (evaluate page d w) as [[a|e0] w0]; [discriminate|].
    destruct (is_Exception (exn_cls e0)) eqn:E; [discriminate|].
    intros [= <- _]. exact E.
  - intros Hp Hc.
    assert (He : evaluate (Some p) (d_call "presskey" [a_page; a_str key]) w =
                 str_result (presskey (Some p) key) w) by reflexivity.
    unfold execute_tool, try_except. rewrite He.
    unfold str_result, bind at 1. rewrite (presskey_propagates p key w e' Hp).
    rewrite Hc. reflexivity.
Qed.

End DispatchOperations.

Section DispatchOperationsExamples.

Import Tools.

Lemma dispatch_catches_witness :
  execute_tool idle_exec idle_input default_tools idle_eval idle_inherited
    idle_call (Some broken_keyboard) (d_call "presskey" [a_page; a_str "Enter"])
    fresh_world =
    (Ret (v_str "Error executing tool: Keyboard.press: Unknown key"),
     log_call (pg_keyboard_press "Enter") fresh_world) /\
  is_Exception KeyboardInterrupt = false.
Proof.
  pose proof (dispatch_catches idle_exec idle_input default_tools idle_eval
                idle_inherited idle_call (Some interrupted_page)
                (d_call "refresh" [a_page]) broken_keyboard "Enter"
                (Exn KeyboardInterrupt EmptyString)
                (Exn RuntimeError "Keyboard.press: Unknown key")
                fresh_world
                (log_call (pg_reload 7000 "load") fresh_world)) as [H1 H2].
  split.
  - apply H2; reflexivity.
  - apply H1. reflexivity.
Defined.

End DispatchOperationsExamples.

(* ===================================================================== *)
(** * The verdict and the report file                                     *)
(* ===================================================================== *)

Section Verdicts.

Import Reporter.

Variable llm : LLM.

Lemma str_app_assoc (a b c : string) : (a ++ b) ++ c = a ++ (b ++ c).
Proof.
  induction a as [|x a IH]; [reflexivity|].
  change (String x (((a ++ b) ++ c)) = String x (a ++ (b ++ c))).
  rewrite IH. reflexivity.
Qed.

Lemma join_snoc (sep x : string) (l : list string) :
  l <> [] -> join sep (l ++ [x]) = join sep l ++ sep ++ x.
Proof.
  induction l as [|y l IH]; [intros H; contradiction H; reflexivity|].
  intros _. destruct l as [|z l]; [reflexivity|].
  change (join sep ((y :: z :: l) ++ [x]))
    with (y ++ sep ++ join sep ((z :: l) ++ [x])).
  rewrite IH by discriminate.
  change (join sep (y :: z :: l)) with (y ++ sep ++ join sep (z :: l)).
  rewrite !str_app_assoc. reflexivity.
Qed.

Lemma write_file_missing_dir (dir name text : string) (w : World) :
  dir ∉ dirs w ->
  write_file dir name text w =
    (Raise (Exn FileNotFoundError
              ("[Errno 2] No such file or directory: '" ++ dir ++ "/" ++ name ++ "'")),
     w).
Proof.
  intros H. unfold write_file. rewrite bool_decide_eq_false_2 by exact H.
  reflexivity.
Qed.


(** The two requests of [report], and the verdict. *)
Lemma report_run (self : reporter) (history : list message)
    (finding reply : string) (w : World) :
  llm (llm_log w) (judge_messages history) = Ret finding ->
  llm (judge_messages history :: llm_log w) (parse_request finding) = Ret reply ->
  report llm self history w =
  let w2 := mkWorld (dirs w) (files w)
              (parse_request finding :: judge_messages history :: llm_log w) in
  let history' := (history ++ [mkMessage "user" judge_request])%list in
  if contains "yes" reply
  then
    let self' := mkReporter (reports self ++ [finding])%list (starting_url self)
                   (output_dir self) (filename self) in
    match save_reports self' w2 with
    | (Ret _, w3) => (Ret (true, finding, self', history'), w3)
    | (Raise e, w3) => (Raise e, w3)
    end
  else (Ret (false, finding, self, history'), w2).
Proof.
  intros Hj Hp. unfold report, bind at 1. unfold reason at 1.
  change ([mkMessage "system" judge_prompt]
          ++ (history ++ [mkMessage "user" judge_request]))%list
    with (judge_messages history).
  rewrite Hj. unfold bind at 1. rewrite parse_report_run. cbn [llm_log dirs files].
  rewrite Hp. cbv zeta.
  destruct (contains "yes" reply); [|reflexivity].
  unfold bind. destruct (save_reports _ _) as [[[]|e] w3]; reflexivity.
Qed.

(** X14.  A negative verdict leaves the reporter and the disk as they
    were: the judge's text is returned with [False], the transcript has
    the judge request appended, and the service was asked twice, the
    judge stage first. *)
Theorem report_negative_verdict (self : reporter) (history : list message)
    (finding reply : string) (w : World) :
  llm (llm_log w) (judge_messages history) = Ret finding ->
  llm (judge_messages history :: llm_log w) (parse_request finding) = Ret reply ->
  ~ occurs_in "yes" reply ->
  report llm self history w =
    (Ret (false, finding, self,
          (history ++ [mkMessage "user" judge_request])%list),
     mkWorld (dirs w) (files w)
       (parse_request finding :: judge_messages history :: llm_log w)).
Proof.
  intros Hj Hp Hno. rewrite (report_run self history finding reply w Hj Hp).
  cbv zeta. destruct (contains "yes" reply) eqn:E; [|reflexivity].
  exfalso. apply Hno, contains_spec, E.
Qed.

(** X15.  A positive verdict with the output directory in place adds
    the judge's text to the reports and rewrites the report file with
    all of them; when the file held the earlier reports, the new content
    is the old content, the delimiter and the new report. *)
Theorem report_positive_verdict (self : reporter) (history : list message)
    (finding reply : string) (w : World) :
  llm (llm_log w) (judge_messages history) = Ret finding ->
  llm (judge_messages history :: llm_log w) (parse_request finding) = Ret reply ->
  occurs_in "yes" reply ->
  output_dir self ∈ dirs w ->
  exists self' w',
    report llm self history w =
      (Ret (true, finding, self',
            (history ++ [mkMessage "user" judge_request])%list), w') /\
    reports self' = (reports self ++ [finding])%list /\
    output_dir self' = output_dir self /\ filename self' = filename self /\
    files w' !! report_path self = Some (join delimiter (reports self')) /\
    (forall old, reports self <> [] ->
       files w !! report_path self = Some old ->
       old = join delimiter (reports self) ->
       files w' !! report_path self = Some (old ++ delimiter ++ finding)).
Proof.
  intros Hj Hp Hyes Hdir.
  rewrite (report_run self history finding reply w Hj Hp). cbv zeta.
  apply contains_spec in Hyes. rewrite Hyes.
  rewrite save_reports_writes by exact Hdir.
  eexists _, _. split; [reflexivity|].
  cbn [reports output_dir filename files dirs llm_log].
  repeat split.
  - apply lookup_insert_eq.
  - intros old Hne _ ->. unfold report_path.
    rewrite lookup_insert_eq, join_snoc by exact Hne. reflexivity.
Qed.

(** X16.  A positive verdict without the output directory: [report]
    raises [FileNotFoundError] after the two requests, and nothing is
    written; [report] does not create the directory. *)
Theorem report_needs_output_dir (self : reporter) (history : list message)
    (finding reply : string) (w : World) :
  llm (llm_log w) (judge_messages history) = Ret finding ->
  llm (judge_messages history :: llm_log w) (parse_request finding) = Ret reply ->
  occurs_in "yes" reply ->
  output_dir self ∉ dirs w ->
  report llm self history w =
    (Raise (Exn FileNotFoundError
              ("[Errno 2] No such file or directory: '" ++ output_dir self
               ++ "/" ++ (filename self ++ ".txt") ++ "'")),
     mkWorld (dirs w) (files w)
       (parse_request finding :: judge_messages history :: llm_log w)).
Proof.
  intros Hj Hp Hyes Hdir.
  rewrite (report_run self history finding reply w Hj Hp). cbv zeta.
  apply contains_spec in Hyes. rewrite Hyes.
  unfold save_reports. cbn [output_dir filename reports].
  rewrite write_file_missing_dir by exact Hdir. reflexivity.
Qed.

(** X17.  A failure of the reasoning service is not caught: raised in
    the judge stage, in the parse stage or in the summary stage, it
    leaves [report] or [generate_summary_report] as it is, and no file
    or directory has changed. *)
Theorem service_failures_propagate (self : reporter) (history : list message)
    (finding : string) (e : exn) (w : World) :
  (llm (llm_log w) (judge_messages history) = Raise e ->
   fst (report llm self history w) = Raise e /\
   files (snd (report llm self history w)) = files w /\
   dirs (snd (report llm self history w)) = dirs w) /\
  (llm (llm_log w) (judge_messages history) = Ret finding ->
   llm (judge_messages history :: llm_log w) (parse_request finding) = Raise e ->
   fst (report llm self history w) = Raise e /\
   files (snd (report llm self history w)) = files w /\
   dirs (snd (report llm self history w)) = dirs w) /\
  ((forall messages, llm (llm_log w) messages = Raise e) ->
   fst (generate_summary_report llm self w) = Raise e /\
   files (snd (generate_summary_report llm self w)) = files w /\
   dirs (snd (generate_summary_report llm self w)) = dirs w).
Proof.
  split; [|split].
  - intros Hj.
    assert (E : report llm self history w =
                (Raise e, mkWorld (dirs w) (files w)
                            (judge_messages history :: llm_log w))).
    { unfold report, bind at 1. unfold reason at 1.
      change ([mkMessage "system" judge_prompt]
              ++ (history ++ [mkMessage "user" judge_request]))%list
        with (judge_messages history).
      rewrite Hj. reflexivity. }
    rewrite E. repeat split.
  - intros Hj Hp.
    assert (E : report llm self history w =
                (Raise e, mkWorld (dirs w) (files w)
                            (parse_request finding :: judge_messages history
                             :: llm_log w))).
    { unfold report, bind at 1. unfold reason at 1.
      change ([mkMessage "system" judge_prompt]
              ++ (history ++ [mkMessage "user" judge_request]))%list
        with (judge_messages history).
      rewrite Hj. unfold bind at 1. rewrite parse_report_run.
      cbn [llm_log dirs files]. rewrite Hp. reflexivity. }
    rewrite E. repeat split.
  - intros Hs.
    assert (E : exists log, generate_summary_report llm self w =
                            (Raise e, mkWorld (dirs w) (files w) log)).
    { unfold generate_summary_report, bind, try_except_cls, read_file, reason.
      destruct (files w !! _) as [text|]; cbn; rewrite Hs;
        eexists; reflexivity. }
    destruct E as [log E]. rewrite E. repeat split.
Qed.

(** X18.  When the reasoning service replies, [generate_summary_report]
    returns whether or not the report file and the output directory were
    there: the directory exists afterwards, the summary file holds the
    reply, and every other file is as before. *)
Theorem summary_written (self : reporter) (summary : string) (w : World)
    (other : string * string) :
  llm (llm_log w)
    (summary_request
       (match files w !! ("security_results", filename self ++ ".txt") with
        | Some text => text
        | None => "No vulns were reported."
        end)) = Ret summary ->
  fst (generate_summary_report llm self w) = Ret tt /\
  output_dir self ∈ dirs (snd (generate_summary_report llm self w)) /\
  files (snd (generate_summary_report llm self w)) !! summary_path self
    = Some summary /\
  (other <> summary_path self ->
   files (snd (generate_summary_report llm self w)) !! other = files w !! other).
Proof.
  intros Hs.
  assert (E : generate_summary_report llm self w =
              (Ret tt,
               mkWorld ({[output_dir self]} ∪ dirs w)
                 (<[summary_path self := summary]> (files w))
                 (summary_request
                    (match files w !! ("security_results", filename self ++ ".txt") with
                     | Some text => text
                     | None => "No vulns were reported."
                     end) :: llm_log w))).
  { unfold generate_summary_report, bind, try_except_cls, read_file, reason,
      mkdir, write_file, summary_request in *.
    destruct (files w !! _) as [text|]; cbn in *; rewrite Hs; cbn;
      rewrite bool_decide_eq_true_2 by set_solver; reflexivity. }
  rewrite E. cbn [fst snd dirs files].
  split; [reflexivity|]. split; [set_solver|]. split.
  - apply lookup_insert_eq.
  - intros Hne. apply lookup_insert_ne. intros H. apply Hne. symmetry. exact H.
Qed.

End Verdicts.

Section VerdictsExamples.

Import Reporter.

Lemma out_exists : "out" ∈ dirs empty_out.
Proof. change ("out" ∈ ({["out"]} : gset string)). set_solver. Defined.

Lemma out_missing : "out" ∉ dirs empty_disk.
Proof. change ("out" ∉ (∅ : gset string)). set_solver. Defined.

Lemma no_yes_in_no : ~ occurs_in "yes" "no".
Proof. intros H. apply contains_spec in H. discriminate H. Defined.

Lemma yes_in_yes : occurs_in "yes" "yes".
Proof. exists EmptyString, EmptyString. reflexivity. Defined.


Lemma report_negative_verdict_witness :
  report (scripted_llm "Nothing was proven." "no")
    (__init__ "https://example.com" "out") [] empty_out =
    (Ret (false, "Nothing was proven.", __init__ "https://example.com" "out",
          [mkMessage "user" judge_request]),
     mkWorld (dirs empty_out) (files empty_out)
       [parse_request "Nothing was proven."; judge_messages []]).
Proof.
  apply (report_negative_verdict (scripted_llm "Nothing was proven." "no")
           (__init__ "https://example.com" "out") [] "Nothing was proven." "no"
           empty_out);
    [reflexivity | reflexivity | exact no_yes_in_no].
Defined.

Lemma report_positive_verdict_witness :
  exists self' w',
    report (scripted_llm "SQL injection in /login" "yes")
      (__init__ "https://example.com" "out") [] empty_out =
      (Ret (true, "SQL injection in /login", self',
            [mkMessage "user" judge_request]), w') /\
    reports self' = ["SQL injection in /login"] /\
    output_dir self' = "out" /\ filename self' = "example.com" /\
    files w' !! ("out", "example.com.txt") = Some "SQL injection in /login".
Proof.
  destruct (report_positive_verdict (scripted_llm "SQL injection in /login" "yes")
              (__init__ "https://example.com" "out") [] "SQL injection in /login"
              "yes" empty_out eq_refl eq_refl yes_in_yes out_exists)
    as (self' & w' & H1 & H2 & H3 & H4 & H5 & _).
  exists self', w'. rewrite H2 in H5. repeat split; assumption.
Defined.

Lemma report_needs_output_dir_witness :
  fst (report (scripted_llm "SQL injection in /login" "yes")
         (__init__ "https://example.com" "out") [] empty_disk) =
    Raise (Exn FileNotFoundError
             "[Errno 2] No such file or directory: 'out/example.com.txt'").
Proof.
  rewrite (report_needs_output_dir (scripted_llm "SQL injection in /login" "yes")
             (__init__ "https://example.com" "out") [] "SQL injection in /login"
             "yes" empty_disk eq_refl eq_refl yes_in_yes out_missing).
  reflexivity.
Defined.

Lemma service_failures_propagate_witness :
  fst (report failing_llm (__init__ "https://example.com" "out") [] empty_out)
    = Raise (Exn RuntimeError "Connection error.") /\
  fst (report judge_only_llm (__init__ "https://example.com" "out") [] empty_out)
    = Raise (Exn RuntimeError "Connection error.") /\
  fst (generate_summary_report failing_llm
         (__init__ "https://example.com" "out") empty_out)
    = Raise (Exn RuntimeError "Connection error.").
Proof.
  pose proof (service_failures_propagate failing_llm
                (__init__ "https://example.com" "out") [] EmptyString
                (Exn RuntimeError "Connection error.") empty_out)
    as (H1 & _ & H3).
  pose proof (service_failures_propagate judge_only_llm
                (__init__ "https://example.com" "out") []
                "SQL injection in /login"
                (Exn RuntimeError "Connection error.") empty_out)
    as (_ & H2 & _).
  split; [|split].
  - apply (proj1 (H1 eq_refl)).
  - apply (proj1 (H2 eq_refl eq_refl)).
  - apply (proj1 (H3 (fun _ => eq_refl))).
Defined.

Lemma summary_written_witness :
  fst (generate_summary_report approving_llm
         (__init__ "https://example.com" "out") empty_disk) = Ret tt /\
  files (snd (generate_summary_report approving_llm
                (__init__ "https://example.com" "out") empty_disk))
    !! ("out", "example.com_summary.md") = Some "yes: SQL injection proven".
Proof.
  pose proof (summary_written approving_llm
                (__init__ "https://example.com" "out")
                "yes: SQL injection proven" empty_disk ("out", "other.txt")
                eq_refl) as (H1 & _ & H3 & _).
  split; [exact H1 | exact H3].
Defined.

End VerdictsExamples.

(* ===================================================================== *)
(** * The URL sets of the crawl summary                                   *)
(* ===================================================================== *)

Section CrawlSets.

Import Reporter.

Lemma ascii_compare_refl (a : ascii) : Ascii.compare a a = Eq.
Proof. unfold Ascii.compare. apply N.compare_refl. Qed.

Lemma str_lt_trans (a b c : string) : str_lt a b -> str_lt b c -> str_lt a c.
Proof.
  unfold str_lt. revert b c.
  induction a as [|x a IH]; intros [|y b] [|z c]; simpl; try discriminate;
    try reflexivity.
  destruct (Ascii.compare x y) eqn:Exy; try discriminate;
    destruct (Ascii.compare y z) eqn:Eyz; try discriminate.
  - apply Ascii.compare_eq_iff in Exy, Eyz. subst.
    rewrite ascii_compare_refl. apply IH.
  - apply Ascii.compare_eq_iff in Exy. subst. rewrite Eyz. reflexivity.
  - apply Ascii.compare_eq_iff in Eyz. subst. rewrite Exy. reflexivity.
  - intros _ _. unfold Ascii.compare in *.
    apply N.compare_lt_iff in Exy, Eyz.
    rewrite (proj2 (N.compare_lt_iff _ _) (N.lt_trans _ _ _ Exy Eyz)).
    reflexivity.
Qed.

Lemma str_compare_refl (a : string) : String.compare a a = Eq.
Proof.
  induction a as [|x a IH]; simpl; [reflexivity|].
  rewrite ascii_compare_refl. exact IH.
Qed.

Lemma str_lt_irrefl (a : string) : ~ str_lt a a.
Proof. unfold str_lt. rewrite str_compare_refl. discriminate. Qed.

Lemma insert_sorted_sorted (x : string) (l : list string) :
  StronglySorted str_lt l -> StronglySorted str_lt (insert_sorted x l).
Proof.
  induction l as [|y l IH]; intros Hs; simpl.
  - constructor; constructor.
  - apply StronglySorted_inv in Hs. destruct Hs as [Hs Hy].
    destruct (String.compare x y) eqn:E.
    + constructor; assumption.
    + constructor; [constructor; assumption|].
      constructor; [exact E|].
      rewrite List.Forall_forall in Hy. apply List.Forall_forall.
      intros z Hz. exact (str_lt_trans _ _ _ E (Hy z Hz)).
    + constructor; [apply IH, Hs|].
      apply List.Forall_forall. intros z Hz. apply insert_sorted_In in Hz.
      destruct Hz as [-> | Hz].
      * unfold str_lt. rewrite String.compare_antisym, E. reflexivity.
      * rewrite List.Forall_forall in Hy. apply Hy, Hz.
Qed.

Lemma sorted_set_sorted (l : list string) : StronglySorted str_lt (sorted_set l).
Proof.
  induction l as [|x l IH]; simpl; [constructor | apply insert_sorted_sorted, IH].
Qed.

Lemma sorted_NoDup (l : list string) : StronglySorted str_lt l -> List.NoDup l.
Proof.
  induction 1 as [|x l Hs IH Hx]; constructor; [|exact IH].
  intros Hin. rewrite List.Forall_forall in Hx.
  exact (str_lt_irrefl x (Hx x Hin)).
Qed.

Lemma truthy_urls_filter (f : request -> bool) (u : string) (rs : list request) :
  In u (truthy_urls (List.filter f rs)) -> In u (truthy_urls rs).
Proof.
  rewrite !truthy_urls_In. intros [Hne [r [Hr Hu]]].
  split; [exact Hne|]. exists r. split; [|exact Hu].
  apply filter_In in Hr. exact (proj1 Hr).
Qed.

Variable urlparse_netloc : string -> option string.
Variable urldefrag : string -> option (string * string).

Local Abbreviation crawl := (generate_safe_crawl_summary urlparse_netloc urldefrag).
Local Abbreviation origin := (same_origin urlparse_netloc).
Local Abbreviation canonical := (canon urldefrag).

(** X19.  The two URL lists of a summary are in strictly increasing
    code-point order, so no URL is listed twice, and every endpoint is
    among the visited URLs. *)
Theorem crawl_lists_sorted (self : reporter) (requests : list request)
    (include_third_party : bool) (data : crawl_data) :
  crawl self requests include_third_party = Some data ->
  StronglySorted str_lt (visited_urls data) /\ List.NoDup (visited_urls data) /\
  StronglySorted str_lt (js_endpoints data) /\ List.NoDup (js_endpoints data) /\
  (forall u, In u (js_endpoints data) -> In u (visited_urls data)).
Proof.
  unfold generate_safe_crawl_summary.
  destruct (urlparse_netloc (starting_url self)) as [host|]; [|discriminate].
  intros [= <-]. cbn [visited_urls js_endpoints].
  pose proof sorted_set_sorted as S.
  repeat split; try apply S; try apply sorted_NoDup, S.
  intros u. rewrite !sorted_set_In, !in_map_iff.
  intros [v [<- Hv]]. exists v. split; [reflexivity|].
  destruct include_third_party; cbn [negb] in *.
  - eapply truthy_urls_filter, Hv.
  - apply filter_In in Hv. destruct Hv as [Hv Ho].
    apply filter_In. split; [eapply truthy_urls_filter, Hv | exact Ho].
Qed.

(** X20.  What the two lists hold.  A URL is visited exactly when it is
    the URL, without its fragment, of a request with a non-empty URL
    that, unless third parties are included, has the host of the
    starting URL; it is an endpoint exactly when, in addition, the
    resource type of that request is [xhr] or [fetch]. *)
Theorem crawl_lists_content (self : reporter) (requests : list request)
    (include_third_party : bool) (host : string) (data : crawl_data)
    (u : string) :
  urlparse_netloc (starting_url self) = Some host ->
  crawl self requests include_third_party = Some data ->
  (In u (visited_urls data) <->
   exists r v, In r requests /\ url r = Some v /\ v <> EmptyString /\
               (include_third_party = false -> origin host v = true) /\
               u = canonical v) /\
  (In u (js_endpoints data) <->
   exists r v, In r requests /\ url r = Some v /\ v <> EmptyString /\
               (include_third_party = false -> origin host v = true) /\
               is_xhr_fetch r = true /\ u = canonical v).
Proof.
  intros Hhost. unfold generate_safe_crawl_summary. rewrite Hhost.
  intros [= <-]. cbn [visited_urls js_endpoints].
  rewrite !sorted_set_In, !in_map_iff.
  destruct include_third_party; cbn [negb]; split; split.
  - intros [v [<- Hv]]. apply truthy_urls_In in Hv.
    destruct Hv as [Hne [r [Hr Hu]]]. exists r, v.
    repeat split; auto. discriminate.
  - intros (r & v & Hr & Hu & Hne & _ & ->). exists v. split; [reflexivity|].
    apply truthy_urls_In. split; [exact Hne | exists r; auto].
  - intros [v [<- Hv]]. apply truthy_urls_In in Hv.
    destruct Hv as [Hne [r [Hr Hu]]]. apply filter_In in Hr.
    destruct Hr as [Hr Hx]. exists r, v. repeat split; auto. discriminate.
  - intros (r & v & Hr & Hu & Hne & _ & Hx & ->). exists v.
    split; [reflexivity|]. apply truthy_urls_In. split; [exact Hne|].
    exists r. split; [apply filter_In; auto | exact Hu].
  - intros [v [<- Hv]]. apply filter_In in Hv. destruct Hv as [Hv Ho].
    apply truthy_urls_In in Hv. destruct Hv as [Hne [r [Hr Hu]]].
    exists r, v. repeat split; auto.
  - intros (r & v & Hr & Hu & Hne & Ho & ->). exists v. split; [reflexivity|].
    apply filter_In. split; [|apply Ho; reflexivity].
    apply truthy_urls_In. split; [exact Hne | exists r; auto].
  - intros [v [<- Hv]]. apply filter_In in Hv. destruct Hv as [Hv Ho].
    apply truthy_urls_In in Hv. destruct Hv as [Hne [r [Hr Hu]]].
    apply filter_In in Hr. destruct Hr as [Hr Hx].
    exists r, v. repeat split; auto.
  - intros (r & v & Hr & Hu & Hne & Ho & Hx & ->). exists v.
    split; [reflexivity|]. apply filter_In. split; [|apply Ho; reflexivity].
    apply truthy_urls_In. split; [exact Hne|].
    exists r. split; [apply filter_In; auto | exact Hu].
Qed.

Lemma insert_sorted_same (x : string) : insert_sorted x [x] = [x].
Proof.
  simpl. rewrite str_compare_refl. reflexivity.
Qed.

(** X21.  Two requests whose URLs differ in their fragment only give
    one visited URL: when two same-origin URLs are the same once the
    fragment is dropped, the visited list has that one entry. *)
Theorem crawl_fragments_collapse (self : reporter) (host a b : string)
    (ta tb : option string) :
  urlparse_netloc (starting_url self) = Some host ->
  a <> EmptyString -> b <> EmptyString ->
  origin host a = true -> origin host b = true ->
  canonical a = canonical b ->
  option_map visited_urls
    (crawl self [mkRequest (Some a) ta; mkRequest (Some b) tb] false)
  = Some [canonical a].
Proof.
  intros Hhost Ha Hb Oa Ob Hc.
  unfold generate_safe_crawl_summary. rewrite Hhost.
  cbn [option_map visited_urls negb].
  destruct a as [|ca a]; [contradiction Ha; reflexivity|].
  destruct b as [|cb b]; [contradiction Hb; reflexivity|].
  cbn [truthy_urls url List.filter]. rewrite Oa, Ob.
  cbn [map sorted_set fold_right]. rewrite <- Hc.
  change (insert_sorted (canonical (String ca a)) [])
    with [canonical (String ca a)].
  rewrite insert_sorted_same. reflexivity.
Qed.

End CrawlSets.

Section CrawlSetsExamples.

Import Reporter.

Lemma crawl_lists_sorted_witness :
  StronglySorted str_lt ["https://example.com/"; "https://example.com/api/data"] /\
  List.NoDup ["https://example.com/"; "https://example.com/api/data"] /\
  StronglySorted str_lt ["https://example.com/api/data"] /\
  List.NoDup ["https://example.com/api/data"] /\
  (forall u, In u ["https://example.com/api/data"] ->
             In u ["https://example.com/"; "https://example.com/api/data"]).
Proof.
  apply (crawl_lists_sorted plain_netloc plain_urldefrag
           (__init__ "https://example.com" "out") test_requests false
           (mkCrawl ["https://example.com/"; "https://example.com/api/data"]
                    ["https://example.com/api/data"])).
  reflexivity.
Defined.

Lemma crawl_lists_content_witness :
  (In "https://example.com/"
      ["https://example.com/"; "https://example.com/api/data"] <->
   exists r v, In r test_requests /\ url r = Some v /\ v <> EmptyString /\
               (false = false -> same_origin plain_netloc "example.com" v = true) /\
               "https://example.com/" = canon plain_urldefrag v) /\
  (In "https://example.com/" ["https://example.com/api/data"] <->
   exists r v, In r test_requests /\ url r = Some v /\ v <> EmptyString /\
               (false = false -> same_origin plain_netloc "example.com" v = true) /\
               is_xhr_fetch r = true /\
               "https://example.com/" = canon plain_urldefrag v).
Proof.
  apply (crawl_lists_content plain_netloc plain_urldefrag
           (__init__ "https://example.com" "out") test_requests false
           "example.com"
           (mkCrawl ["https://example.com/"; "https://example.com/api/data"]
                    ["https://example.com/api/data"])
           "https://example.com/"); reflexivity.
Defined.

Lemma crawl_fragments_collapse_witness :
  option_map visited_urls
    (generate_safe_crawl_summary plain_netloc plain_urldefrag
       (__init__ "https://example.com" "out")
       [mkRequest (Some "https://example.com/a#top") (Some "document");
        mkRequest (Some "https://example.com/a#end") (Some "document")] false)
  = Some [canon plain_urldefrag "https://example.com/a#top"].
Proof.
  apply (crawl_fragments_collapse plain_netloc plain_urldefrag
           (__init__ "https://example.com" "out") "example.com"
           "https://example.com/a#top" "https://example.com/a#end"
           (Some "document") (Some "document"));
    try reflexivity; discriminate.
Defined.

End CrawlSetsExamples.

(* ===================================================================== *)
(** * The response headers of the crawl summary                           *)
(* ===================================================================== *)

Section Headers.

Import Reporter.

Lemma lower_code_idempotent (c : ascii) : lower_code (lower_code c) = lower_code c.
Proof. destruct c as [[] [] [] [] [] [] [] []]; reflexivity. Qed.

Lemma str_lower_idempotent (s : string) : str_lower (str_lower s) = str_lower s.
Proof.
  induction s as [|c s IH]; simpl; [reflexivity|].
  rewrite lower_code_idempotent, IH. reflexivity.
Qed.

Lemma count_of_bump (name k : string) (counts : list (string * nat)) :
  count_of name (bump k counts) =
  count_of name counts + (if String.eqb name k then 1 else 0).
Proof.
  induction counts as [|[k' n] rest IH]; simpl.
  - rewrite String.eqb_sym. destruct (String.eqb name k); reflexivity.
  - destruct (String.eqb k' k) eqn:Ek; simpl.
    + apply String.eqb_eq in Ek. subst k'. rewrite (String.eqb_sym name k).
      destruct (String.eqb k name); lia.
    + destruct (String.eqb k' name) eqn:En; [|exact IH].
      apply String.eqb_eq in En. subst k'. rewrite Ek. lia.
Qed.

Lemma bump_keys (k : string) (counts : list (string * nat)) :
  map fst (bump k counts) =
  if existsb (String.eqb k) (map fst counts)
  then map fst counts else (map fst counts ++ [k])%list.
Proof.
  induction counts as [|[k' n] rest IH]; simpl; [reflexivity|].
  rewrite (String.eqb_sym k k').
  destruct (String.eqb k' k); simpl; [reflexivity|].
  rewrite IH. destruct (existsb _ _); reflexivity.
Qed.

Lemma bump_NoDup (k : string) (counts : list (string * nat)) :
  List.NoDup (map fst counts) -> List.NoDup (map fst (bump k counts)).
Proof.
  intros H. rewrite bump_keys.
  destruct (existsb (String.eqb k) (map fst counts)) eqn:E; [exact H|].
  apply NoDup_app_remove_l with (l := []). simpl.
  apply Permutation_NoDup with (l := k :: map fst counts).
  - apply Permutation_cons_append.
  - constructor; [|exact H]. intros Hin.
    assert (existsb (String.eqb k) (map fst counts) = true).
    { apply existsb_exists. exists k. split; [exact Hin | apply String.eqb_refl]. }
    congruence.
Qed.

Lemma bump_lower (k : string) (counts : list (string * nat)) :
  Forall (fun kn => str_lower (fst kn) = fst kn) counts ->
  Forall (fun kn => str_lower (fst kn) = fst kn) (bump (str_lower k) counts).
Proof.
  induction 1 as [|[k' n] rest Hk Hrest IH]; simpl.
  - constructor; [apply str_lower_idempotent | constructor].
  - destruct (String.eqb k' (str_lower k)); constructor; assumption.
Qed.

Lemma bump_positive (k : string) (counts : list (string * nat)) :
  Forall (fun kn => 1 <= snd kn) counts ->
  Forall (fun kn => 1 <= snd kn) (bump k counts).
Proof.
  induction 1 as [|[k' n] rest Hk Hrest IH]; simpl.
  - constructor; [simpl; lia | constructor].
  - destruct (String.eqb k' k); constructor; simpl in *; try assumption; lia.
Qed.

Lemma header_counts_flat (responses : list response) :
  header_counts responses = count_keys (all_header_keys responses) [].
Proof.
  unfold header_counts, all_header_keys, count_keys. generalize (@nil (string * nat)).
  induction responses as [|res rs IH]; intros acc; simpl; [reflexivity|].
  rewrite fold_left_app. apply IH.
Qed.

Lemma count_keys_invariant (keys : list string) (counts : list (string * nat))
    (name : string) :
  List.NoDup (map fst counts) ->
  Forall (fun kn => str_lower (fst kn) = fst kn) counts ->
  Forall (fun kn => 1 <= snd kn) counts ->
  count_of name (count_keys keys counts) =
    count_of name counts + occurrences name (map str_lower keys) /\
  List.NoDup (map fst (count_keys keys counts)) /\
  Forall (fun kn => str_lower (fst kn) = fst kn) (count_keys keys counts) /\
  Forall (fun kn => 1 <= snd kn) (count_keys keys counts).
Proof.
  revert counts. induction keys as [|k keys IH]; intros counts Hn Hl Hp.
  - unfold occurrences. simpl. repeat split; try assumption. lia.
  - change (count_keys (k :: keys) counts)
      with (count_keys keys (bump (str_lower k) counts)).
    destruct (IH (bump (str_lower k) counts) (bump_NoDup _ _ Hn)
                (bump_lower _ _ Hl) (bump_positive _ _ Hp)) as (Hc & H2 & H3 & H4).
    repeat split; try assumption.
    rewrite Hc, count_of_bump. unfold occurrences. simpl.
    destruct (String.eqb name (str_lower k)); simpl; lia.
Qed.

End Headers.

Section CommonHeaders.

Import Reporter.

(** X22.  The count kept for a name is the number of header names, over
    all responses, that are this name once lower-cased: spellings that
    differ in case are counted together.  Every name kept is in lower
    case, is kept once, and has a count of at least one. *)
Theorem header_counts_correct (responses : list response) (name : string) :
  count_of name (header_counts responses) =
    occurrences name (map str_lower (all_header_keys responses)) /\
  List.NoDup (map fst (header_counts responses)) /\
  Forall (fun kn => str_lower (fst kn) = fst kn) (header_counts responses) /\
  Forall (fun kn => 1 <= snd kn) (header_counts responses).
Proof.
  rewrite header_counts_flat.
  apply (count_keys_invariant (all_header_keys responses) [] name);
    constructor.
Qed.

Lemma count_of_In (k : string) (n : nat) (counts : list (string * nat)) :
  List.NoDup (map fst counts) -> In (k, n) counts -> count_of k counts = n.
Proof.
  induction counts as [|[k' n'] rest IH]; simpl; [intros _ []|].
  intros Hn [H | H].
  - injection H as -> ->. rewrite String.eqb_refl. reflexivity.
  - apply NoDup_cons_iff in Hn. destruct Hn as [Hnotin Hn].
    destruct (String.eqb k' k) eqn:E; [|exact (IH Hn H)].
    apply String.eqb_eq in E. subst k'. exfalso. apply Hnotin.
    apply in_map_iff. exists (k, n). split; [reflexivity | exact H].
Qed.

Lemma insert_by_count_perm (x : string * nat) (l : list (string * nat)) :
  Permutation (insert_by_count x l) (x :: l).
Proof.
  induction l as [|y l IH]; simpl; [reflexivity|].
  destruct (snd x <? snd y)%nat; [|reflexivity].
  rewrite IH. apply perm_swap.
Qed.

Lemma sorted_by_count_perm (l : list (string * nat)) :
  Permutation (sorted_by_count l) l.
Proof.
  induction l as [|x l IH]; simpl; [reflexivity|].
  rewrite insert_by_count_perm, IH. reflexivity.
Qed.

Lemma insert_by_count_sorted (x : string * nat) (l : list (string * nat)) :
  StronglySorted count_ge l -> StronglySorted count_ge (insert_by_count x l).
Proof.
  induction l as [|y l IH]; intros Hs; simpl.
  - constructor; constructor.
  - apply StronglySorted_inv in Hs. destruct Hs as [Hs Hy].
    destruct (Nat.ltb_spec (snd x) (snd y)) as [Hlt | Hge].
    + constructor; [apply IH, Hs|].
      apply List.Forall_forall. intros z Hz.
      apply (Permutation_in _ (insert_by_count_perm x l)) in Hz.
      destruct Hz as [<- | Hz]; [unfold count_ge; lia|].
      rewrite List.Forall_forall in Hy. apply Hy, Hz.
    + constructor; [constructor; assumption|].
      constructor; [exact Hge|].
      rewrite List.Forall_forall in Hy. apply List.Forall_forall.
      intros z Hz. specialize (Hy z Hz). unfold count_ge in *. lia.
Qed.

Lemma sorted_by_count_sorted (l : list (string * nat)) :
  StronglySorted count_ge (sorted_by_count l).
Proof.
  induction l as [|x l IH]; simpl; [constructor | apply insert_by_count_sorted, IH].
Qed.

Lemma in_firstn {A} (n : nat) (l : list A) (x : A) :
  In x (firstn n l) -> In x l.
Proof.
  intros H. rewrite <- (firstn_skipn n l). apply in_or_app. left. exact H.
Qed.

Lemma in_skipn {A} (n : nat) (l : list A) (x : A) :
  In x (skipn n l) -> In x l.
Proof.
  intros H. rewrite <- (firstn_skipn n l). apply in_or_app. right. exact H.
Qed.

Lemma sorted_firstn {A} (R : A -> A -> Prop) (n : nat) (l : list A) :
  StronglySorted R l -> StronglySorted R (firstn n l).
Proof.
  revert l. induction n as [|n IH]; intros l Hs; [constructor|].
  destruct l as [|x l]; [constructor|].
  apply StronglySorted_inv in Hs. destruct Hs as [Hs Hx].
  cbn [firstn]. constructor; [apply IH, Hs|].
  rewrite List.Forall_forall in Hx. apply List.Forall_forall.
  intros z Hz. apply Hx. exact (in_firstn _ _ _ Hz).
Qed.

(** In a sorted list, what comes after the first [n] items is below
    each of them. *)
Lemma sorted_firstn_skipn {A} (R : A -> A -> Prop) (n : nat) (l : list A)
    (a b : A) :
  StronglySorted R l -> In a (firstn n l) -> In b (skipn n l) -> R a b.
Proof.
  revert l. induction n as [|n IH]; intros l Hs Ha Hb; [destruct Ha|].
  destruct l as [|x l]; [destruct Ha|].
  apply StronglySorted_inv in Hs. destruct Hs as [Hs Hx].
  cbn [firstn skipn] in *. destruct Ha as [<- | Ha].
  - rewrite List.Forall_forall in Hx. apply Hx. exact (in_skipn _ _ _ Hb).
  - exact (IH l Hs Ha Hb).
Qed.

(** X23.  The common headers are at most 15 of the counted names, with
    their counts, from the most frequent down; a counted name left out
    is not more frequent than any of those kept. *)
Theorem common_headers_top (responses : list response)
    (kept other : string * nat) :
  length (common_headers responses) <= 15 /\
  StronglySorted count_ge (common_headers responses) /\
  (In kept (common_headers responses) ->
   In kept (header_counts responses) /\
   snd kept =
     occurrences (fst kept) (map str_lower (all_header_keys responses))) /\
  (In kept (common_headers responses) ->
   In other (header_counts responses) ->
   ~ In other (common_headers responses) ->
   snd other <= snd kept).
Proof.
  unfold common_headers.
  pose proof (sorted_by_count_sorted (header_counts responses)) as Hs.
  pose proof (sorted_by_count_perm (header_counts responses)) as Hp.
  split; [apply firstn_le_length|].
  split; [apply sorted_firstn, Hs|]. split.
  - intros Hk. apply in_firstn in Hk.
    apply (Permutation_in _ Hp) in Hk. split; [exact Hk|].
    pose proof (count_keys_invariant (all_header_keys responses) [] (fst kept)
                  (List.NoDup_nil _) (List.Forall_nil _) (List.Forall_nil _))
      as (Hc & Hn & _).
    rewrite <- header_counts_flat in Hc, Hn. cbn [count_of Nat.add] in Hc.
    rewrite <- Hc. symmetry. apply count_of_In; [exact Hn|].
    destruct kept. exact Hk.
  - intros Hk Ho Hno.
    apply (Permutation_in _ (Permutation_sym Hp)) in Ho.
    rewrite <- (firstn_skipn 15 (sorted_by_count (header_counts responses))) in Ho.
    apply in_app_or in Ho. destruct Ho as [Ho | Ho]; [contradiction|].
    exact (sorted_firstn_skipn count_ge 15 _ kept other Hs Hk Ho).
Qed.

Lemma common_headers_top_witness :
  In ("content-type", 2) (header_counts test_responses) /\
  2 = occurrences "content-type" (map str_lower (all_header_keys test_responses)).
Proof.
  apply (proj1 (proj2 (proj2 (common_headers_top test_responses
                                ("content-type", 2) ("server", 1))))).
  left. reflexivity.
Defined.

End CommonHeaders.
